(** * rename_files.py: renaming the entries of a directory tree

    A shallow embedding of [get_new_filename], [rename_file] and
    [rename_files] of [rename_files.py], with the parts of Python's [re],
    [os] and [os.path] modules they call.

    - A Python [str] is a list of Unicode code points ([N]).
    - [re.escape], the pattern parser, the matcher and [re.split] are
      modelled for the fragment of the pattern language the script can reach
      (literals, escapes, [.], [\s] and the greedy repeats).
    - The operating system is an interface ([OS]): the traversal is defined
      and verified for every implementation of it, and [SimFS] gives one
      concrete file system on which it is run. *)

From Stdlib Require Import String Ascii.
From Stdlib Require DecimalString.
From Stdlib Require Import List NArith ZArith Bool Lia Arith.
Import ListNotations.

Set Implicit Arguments.

(* ================================================================= *)
(** ** Python strings *)

Module Str.

Definition char := N.
Definition str := list char.

(** A string literal of this file, as a Python [str]. *)
Definition py (s : String.string) : str :=
  List.map Ascii.N_of_ascii (String.list_ascii_of_string s).

Definition ch (a : Ascii.ascii) : char := Ascii.N_of_ascii a.

Arguments py s%_string.
Arguments ch a%_char.

Fixpoint str_eqb (a b : str) : bool :=
  match a, b with
  | [], [] => true
  | x :: a', y :: b' => N.eqb x y && str_eqb a' b'
  | _, _ => false
  end.

(** [t.startswith(s)] *)
Fixpoint startswith (s t : str) : bool :=
  match s, t with
  | [], _ => true
  | x :: s', y :: t' => N.eqb x y && startswith s' t'
  | _ :: _, [] => false
  end.

(** [s in t]: [s] occurs in [t] as a substring. *)
Fixpoint contains (s t : str) : bool :=
  startswith s t ||
  match t with
  | [] => false
  | _ :: t' => contains s t'
  end.

(** [sep.join(parts)] *)
Fixpoint join (sep : str) (parts : list str) : str :=
  match parts with
  | [] => []
  | [p] => p
  | p :: ps => p ++ sep ++ join sep ps
  end.

(** [c in chars], for a character and a string of characters. *)
Definition mem (c : char) (chars : str) : bool := existsb (N.eqb c) chars.

End Str.
Import Str.

(* ================================================================= *)
(** ** The [re] module *)

Module Re.

Definition backslash : char := 92%N.

(** The characters [re.escape] escapes: [_special_chars_map] of [re.py],
    built from [b'()[]{}?*+-|^$\\.&~# \t\n\r\v\f']. *)
Definition special_chars : str :=
  py "()[]{}?*+-|^$" ++ [backslash] ++ py ".&~# " ++ [9; 10; 13; 11; 12]%N.

(** [re.escape(pattern)]: a backslash before each special character. *)
Fixpoint escape (pattern : str) : str :=
  match pattern with
  | [] => []
  | c :: rest =>
      if mem c special_chars then backslash :: c :: escape rest
      else c :: escape rest
  end.

(** *** Patterns

    The fragment of the pattern language: an atom is a literal character,
    [.] or the class [\s]; an atom stands alone or under one of the greedy
    repeats [?], [*], [+]. *)
Inductive atom :=
| Lit (c : char)
| AnyChar
| Whitespace.

Inductive repeat := One | Opt | Star | Plus.

Definition regex := list (atom * repeat).

(** The tokens the parser reads: a character, or a backslash with the
    character after it ([Tokenizer.__next] of the pattern parser). *)
Inductive token :=
| Chr (c : char)
| Esc (c : char).

Fixpoint tokenize (pattern : str) : option (list token) :=
  match pattern with
  | [] => Some []
  | c :: rest =>
      if N.eqb c backslash then
        match rest with
        | [] => None                      (* bad escape (end of pattern) *)
        | e :: rest' => option_map (cons (Esc e)) (tokenize rest')
        end
      else option_map (cons (Chr c)) (tokenize rest)
  end.

(** [SPECIAL_CHARS] and [REPEAT_CHARS] of the pattern parser. *)
Definition SPECIAL_CHARS : str := py "." ++ [backslash] ++ py "[{()*+?^$|".
Definition REPEAT_CHARS : str := py "*+?{".

Definition is_ascii_alnum (c : char) : bool :=
  ((48 <=? c) && (c <=? 57) || (65 <=? c) && (c <=? 90)
   || (97 <=? c) && (c <=? 122))%N.

(** The atom a token stands for.  [None]: the pattern is an error or uses a
    construct outside the fragment (classes, groups, anchors, alternation,
    counted repeats, the escapes of letters and digits other than [\s]). *)
Definition atom_of_token (t : token) : option atom :=
  match t with
  | Esc e =>
      if N.eqb e (ch "s") then Some Whitespace
      else if is_ascii_alnum e then None
      else Some (Lit e)
  | Chr c =>
      if N.eqb c (ch ".") then Some AnyChar
      else if mem c SPECIAL_CHARS then None
      else Some (Lit c)
  end.

Definition repeat_of_char (c : char) : option repeat :=
  if N.eqb c (ch "?") then Some Opt
  else if N.eqb c (ch "*") then Some Star
  else if N.eqb c (ch "+") then Some Plus
  else None.

Fixpoint parse (ts : list token) : option regex :=
  match ts with
  | [] => Some []
  | t :: ts' =>
      match atom_of_token t with
      | None => None
      | Some a =>
          match ts' with
          | Chr q :: ts'' =>
              if mem q REPEAT_CHARS then
                match repeat_of_char q with
                | Some r => option_map (cons (a, r)) (parse ts'')
                | None => None
                end
              else option_map (cons (a, One)) (parse ts')
          | _ => option_map (cons (a, One)) (parse ts')
          end
      end
  end.

(** [re.compile(pattern)] *)
Definition compile (pattern : str) : option regex :=
  match tokenize pattern with
  | Some ts => parse ts
  | None => None
  end.

(** *** Matching *)

(** [\s] on a [str] pattern: Unicode whitespace, [str.isspace]. *)
Definition is_space (c : char) : bool :=
  ((9 <=? c) && (c <=? 13) || (28 <=? c) && (c <=? 32)
   || (c =? 133) || (c =? 160) || (c =? 5760)
   || (8192 <=? c) && (c <=? 8202)
   || (c =? 8232) || (c =? 8233) || (c =? 8239) || (c =? 8287)
   || (c =? 12288))%N.

Definition atom_matches (a : atom) (c : char) : bool :=
  match a with
  | Lit x => N.eqb c x
  | AnyChar => negb (N.eqb c 10)      (* no DOTALL: any but a newline *)
  | Whitespace => is_space c
  end.

(** The match of [p] at the start of [s]: the length of the first match in
    the matcher's order of preference (a greedy repeat takes as many
    characters as it can and gives them back one by one). *)
Fixpoint match_here (p : regex) (s : str) : option nat :=
  match p with
  | [] => Some 0
  | (a, r) :: p' =>
      let rest := match_here p' in
      let many :=
        fix many (s : str) : option nat :=
          match s with
          | c :: s' =>
              if atom_matches a c then
                match many s' with
                | Some n => Some (S n)
                | None => rest s
                end
              else rest s
          | [] => rest s
          end in
      match r with
      | One =>
          match s with
          | c :: s' =>
              if atom_matches a c then option_map S (rest s') else None
          | [] => None
          end
      | Opt =>
          match s with
          | c :: s' =>
              if atom_matches a c then
                match rest s' with
                | Some n => Some (S n)
                | None => rest s
                end
              else rest s
          | [] => rest s
          end
      | Star => many s
      | Plus =>
          match s with
          | c :: s' =>
              if atom_matches a c then option_map S (many s') else None
          | [] => None
          end
      end
  end.

(** The match at the start of [s] when the matcher [must_advance]: an empty
    match is refused.  In this fragment the empty match is the last one in
    the order of preference, so refusing it leaves no match. *)
Definition match_at (p : regex) (must_advance : bool) (s : str) : option nat :=
  match match_here p s with
  | Some 0 => if must_advance then None else Some 0
  | m => m
  end.

(** [pattern.search]: the leftmost match, as (offset, length). *)
Fixpoint search (p : regex) (must_advance : bool) (s : str)
  : option (nat * nat) :=
  match match_at p must_advance s with
  | Some len => Some (0, len)
  | None =>
      match s with
      | [] => None
      | _ :: s' =>
          match search p false s' with
          | Some (i, len) => Some (S i, len)
          | None => None
          end
      end
  end.

(** The loop of [pattern.split]: the piece before each match, then the rest
    of the string.  After an empty match the next one must advance. *)
Fixpoint split_loop (fuel : nat) (p : regex) (must_advance : bool) (s : str)
  : list str :=
  match fuel with
  | O => [s]
  | S fuel' =>
      match search p must_advance s with
      | None => [s]
      | Some (i, len) =>
          firstn i s :: split_loop fuel' p (Nat.eqb len 0) (skipn (i + len) s)
      end
  end.

Definition split_regex (p : regex) (s : str) : list str :=
  split_loop (2 * length s + 2) p false s.

(** [re.split(pattern, string)]; [None] when the pattern does not compile. *)
Definition split (pattern string : str) : option (list str) :=
  match compile pattern with
  | Some p => Some (split_regex p string)
  | None => None
  end.

(** The token [escape] makes of one character of the text it escapes. *)
Definition escaped_token (c : char) : token :=
  if mem c special_chars then Esc c else Chr c.

(** The pattern of the literal characters of [s]. *)
Definition literal (s : str) : regex := map (fun c => (Lit c, One)) s.

(** The length of the run of whitespace at the start of [t]. *)
Fixpoint leading_space (t : str) : nat :=
  match t with
  | c :: t' => if is_space c then S (leading_space t') else 0
  | [] => 0
  end.

End Re.

(* ================================================================= *)
(** ** [get_new_filename] *)

(** The pattern [get_new_filename] builds ([r'{0}'.format(x)] is [x]). *)
Definition pattern_of (search : str) : str :=
  if str_eqb search (py " ") then [Re.backslash] ++ py "s+"
  else Re.escape search.

Definition get_new_filename (filename search replace : str) : option str :=
  let regex := pattern_of search in
  match Re.split regex filename with
  | Some filename_parts => Some (join replace filename_parts)
  | None => None
  end.

(* ================================================================= *)
(** ** What the specification says of [get_new_filename]

    These two functions follow the words of the specification, not the
    code: they are what [get_new_filename] is compared with. *)

Module Spec.

(** [n] with every non-overlapping literal occurrence of [s] replaced by
    [r], reading [n] from left to right: [skip] counts the characters of the
    occurrence being replaced that are still to be passed over. *)
Fixpoint replace_from (s r : str) (skip : nat) (n : str) : str :=
  match n with
  | [] => []
  | c :: n' =>
      match skip with
      | S k => replace_from s r k n'
      | O =>
          if startswith s n then r ++ replace_from s r (length s - 1) n'
          else c :: replace_from s r 0 n'
      end
  end.

Definition replace_all (s r n : str) : str := replace_from s r 0 n.

(** The pieces of a name between the occurrences of [s] read from the
    left: no occurrence of [s] starts inside a piece, not even one that
    runs on into the occurrence after it. *)
Fixpoint leftmost_pieces (s : str) (pieces : list str) : bool :=
  match pieces with
  | [] => false
  | [p] => negb (contains s p)
  | p :: ps => negb (contains s (p ++ removelast s)) && leftmost_pieces s ps
  end.

(** [n] with every maximal run of whitespace characters replaced by one
    copy of [r], for the characters [ws] counts as whitespace; [in_run]
    says that the character before was whitespace. *)
Fixpoint collapse_from (ws : char -> bool) (r : str) (in_run : bool) (n : str)
  : str :=
  match n with
  | [] => []
  | c :: n' =>
      if ws c then (if in_run then [] else r) ++ collapse_from ws r true n'
      else c :: collapse_from ws r false n'
  end.

(** With the whitespace of the class [\s]. *)
Definition collapse_whitespace (r n : str) : str :=
  collapse_from Re.is_space r false n.

(** With the space and the tab alone. *)
Definition space_or_tab (c : char) : bool := N.eqb c 32 || N.eqb c 9.

Definition collapse_spaces_tabs (r n : str) : str :=
  collapse_from space_or_tab r false n.

End Spec.

(* ================================================================= *)
(** ** [os.path.join], exceptions and the operating system *)

Definition sep : char := 47%N.

Definition endswith_sep (p : str) : bool :=
  match rev p with
  | c :: _ => N.eqb c sep
  | [] => false
  end.

(** [posixpath.join(a, b)] *)
Definition path_join (a b : str) : str :=
  if startswith [sep] b then b
  else if match a with [] => true | _ => endswith_sep a end then a ++ b
  else a ++ [sep] ++ b.

Inductive exc :=
| FileNotFoundError
| PermissionError
| NotADirectoryError
| IsADirectoryError
| OSError                (* any other [OSError] *)
| ValueError
| re_error.

(** [isinstance(e, OSError)]: what [except (OSError, PermissionError)]
    catches. *)
Definition is_OSError (e : exc) : bool :=
  match e with
  | ValueError | re_error => false
  | _ => true
  end.

Inductive result (A : Type) :=
| Ok (a : A)
| Err (e : exc).
Arguments Err {A} e.

(** The calls the script makes to [os] and [os.path], on a [world] that
    holds the file system and the working directory.  A call that fails
    leaves the world as it was. *)
Class OS (world : Type) := {
  os_chdir : str -> world -> result world;
  os_listdir : world -> result (list str);
  os_path_isdir : str -> world -> bool;
  os_path_isfile : str -> world -> bool;
  os_rename : str -> str -> world -> result world;
  os_getcwd : world -> str
}.

(* ================================================================= *)
(** ** The script *)

Section Script.

Context {world : Type} {os : OS world}.

(** The state of a run: the world and what was printed. *)
Record state := {
  st_world : world;
  st_stdout : list str
}.

(** How a call ends: it returns, an exception leaves it, or the model ran
    out of fuel. *)
Inductive outcome (A : Type) :=
| Done (a : A) (s : state)
| Raised (e : exc) (s : state)
| OutOfFuel.
Arguments Raised {A} e s.
Arguments OutOfFuel {A}.

Definition M (A : Type) := state -> outcome A.

(** What holds of an outcome: [Q] of the value and the state a call
    returns, [E] of the state an exception leaves, [F] if the fuel ran
    out. *)
Definition outcome_sat {A} (Q : A -> state -> Prop) (E : state -> Prop)
    (F : Prop) (o : outcome A) : Prop :=
  match o with
  | Done a s => Q a s
  | Raised _ s => E s
  | OutOfFuel => F
  end.

Definition ret {A} (a : A) : M A := fun s => Done a s.

Definition bind {A B} (m : M A) (k : A -> M B) : M B :=
  fun s =>
    match m s with
    | Done a s' => k a s'
    | Raised e s' => Raised e s'
    | OutOfFuel => OutOfFuel
    end.

Definition raise {A} (e : exc) : M A := fun s => Raised e s.

Notation "x <- m ;; k" := (bind m (fun x => k))
  (at level 61, m at next level, right associativity).
Notation "' pat <- m ;; k" := (bind m (fun x => match x with pat => k end))
  (at level 61, pat pattern, m at next level, right associativity).

(** A query of the world. *)
Definition ask {A} (f : world -> A) : M A := fun s => Done (f (st_world s)) s.

(** [for x in xs: acc = body(x, acc)] *)
Fixpoint for_each {A B} (xs : list A) (body : A -> B -> M B) (acc : B) : M B :=
  match xs with
  | [] => ret acc
  | x :: xs' => acc' <- body x acc ;; for_each xs' body acc'
  end.

Definition CRED : str := [27%N] ++ py "[1m" ++ [27%N] ++ py "[31m".
Definition CEND : str := [27%N] ++ py "[0m".

(** [print_error_message(message)] *)
Definition print_error_message (message : str) : M unit :=
  fun s =>
    Done tt {| st_world := st_world s;
               st_stdout := st_stdout s ++ [[10%N] ++ CRED ++ message ++ CEND ++ [10%N]] |}.

(** [rename_file(old_filename, new_filename)] *)
Definition rename_file (old_filename new_filename : str) : M bool :=
  fun s =>
    match os_rename old_filename new_filename (st_world s) with
    | Ok w => Done true {| st_world := w; st_stdout := st_stdout s |}
    | Err e => if is_OSError e then Done false s else Raised e s
    end.

(** The call of [get_new_filename] inside [rename_files]: a pattern that
    does not compile raises [re.error]. *)
Definition new_name (file search replace : str) : M str :=
  match get_new_filename file search replace with
  | Some new_filename => ret new_filename
  | None => raise re_error
  end.

(** The body of the loop over [os.listdir()]; [acc] is the pair of
    [counter] and [directories]. *)
Definition scan_entry (search replace : str) (rename_directories : bool)
    (file : str) (acc : Z * list str) : M (Z * list str) :=
  let '(counter, directories) := acc in
  isdir <- ask (os_path_isdir file) ;;
  if isdir then
    ' (counter, file) <-
      (if rename_directories && contains search file then
         new_filename <- new_name file search replace ;;
         renamed <- rename_file file new_filename ;;
         if renamed then ret ((counter + 1)%Z, new_filename)
         else ret (counter, file)
       else ret (counter, file)) ;;
    cwd <- ask os_getcwd ;;
    ret (counter, directories ++ [path_join cwd file])
  else
    isfile <- ask (os_path_isfile file) ;;
    if isfile then
      if negb (contains search file) then ret (counter, directories)
      else
        new_filename <- new_name file search replace ;;
        renamed <- rename_file file new_filename ;;
        if renamed then ret ((counter + 1)%Z, directories)
        else ret (counter, directories)
    else ret (counter, directories).

(** The loop over [os.listdir()]; the call of [os.listdir] is outside every
    [try], so an exception of it leaves [rename_files]. *)
Definition scan (search replace : str) (rename_directories : bool)
    (counter : Z) : M (Z * list str) :=
  fun s =>
    match os_listdir (st_world s) with
    | Ok files =>
        for_each files (scan_entry search replace rename_directories)
                 (counter, []) s
    | Err e => Raised e s
    end.

Definition access_denied (directory : str) : str :=
  py "Access to directory " ++ [34%N] ++ directory ++ [34%N] ++ py " denied".

(** [rename_files(directory, search, replace, sub_directories,
    rename_directories, counter)]; [fuel] bounds the depth of the
    recursion. *)
Fixpoint rename_files (fuel : nat) (directory search replace : str)
    (sub_directories rename_directories : bool) (counter : Z) : M Z :=
  match fuel with
  | O => fun _ => OutOfFuel
  | S fuel' =>
      fun s =>
        match os_chdir directory (st_world s) with
        | Err e =>
            if is_OSError e then
              (_ <- print_error_message (access_denied directory) ;;
               ret counter) s
            else Raised e s
        | Ok w =>
            (' (counter, directories) <-
               scan search replace rename_directories counter ;;
             if sub_directories && negb (Nat.eqb (length directories) 0) then
               for_each directories
                 (fun dir_ counter =>
                    rename_files fuel' dir_ search replace sub_directories
                                 rename_directories counter)
                 counter
             else ret counter)
              {| st_world := w; st_stdout := st_stdout s |}
        end
  end.

End Script.

Arguments state : clear implicits.
Arguments Raised {world A} e s.
Arguments OutOfFuel {world A}.
Arguments Done {world A} a s.

(* ================================================================= *)
(** ** A simulated file system

    One implementation of [OS]: a finite POSIX-like tree of files and
    directories with permission bits, kept as a list of absolute paths (the
    order of the list is the order [os.listdir] yields).  The root
    directory is always there and open.  [rename] works inside the working
    directory; a destination that names an entry of another directory (it
    holds a [/]) is refused with [OSError], as when the directory named
    does not exist: the simulation has no moves between directories. *)

Module SimFS.

Inductive kind :=
| File
| Dir (r w x : bool)          (* may list, may change entries, may enter *)
| Special.                    (* neither a file nor a directory *)

Definition path := list str.

Record fs := {
  entries : list (path * kind);
  cwd : path
}.

Fixpoint path_eqb (p q : path) : bool :=
  match p, q with
  | [], [] => true
  | a :: p', b :: q' => str_eqb a b && path_eqb p' q'
  | _, _ => false
  end.

Fixpoint lookup (es : list (path * kind)) (p : path) : option kind :=
  match es with
  | [] => None
  | (q, k) :: es' => if path_eqb q p then Some k else lookup es' p
  end.

Definition kind_at (es : list (path * kind)) (p : path) : option kind :=
  match p with
  | [] => Some (Dir true true true)
  | _ => lookup es p
  end.

(** The components of a path string, between the separators. *)
Fixpoint components (p : str) : list str :=
  match p with
  | [] => [[]]
  | c :: p' =>
      if N.eqb c sep then [] :: components p'
      else
        match components p' with
        | h :: t => (c :: h) :: t
        | [] => [[c]]
        end
  end.

Definition dot : str := py ".".
Definition dotdot : str := py "..".

(** Follow [comps] from the directory [cur]. *)
Fixpoint walk (es : list (path * kind)) (cur : path) (comps : list str)
  : result path :=
  match comps with
  | [] => Ok cur
  | c :: rest =>
      match kind_at es cur with
      | Some (Dir _ _ true) =>
          if str_eqb c [] || str_eqb c dot then walk es cur rest
          else if str_eqb c dotdot then walk es (removelast cur) rest
          else
            match kind_at es (cur ++ [c]) with
            | Some _ => walk es (cur ++ [c]) rest
            | None => Err FileNotFoundError
            end
      | Some (Dir _ _ false) => Err PermissionError
      | Some _ => Err NotADirectoryError
      | None => Err FileNotFoundError
      end
  end.

(** The absolute path of what the path string [p] names. *)
Definition locate (f : fs) (p : str) : result path :=
  if mem 0%N p then Err ValueError
  else
    match p with
    | [] => Err FileNotFoundError
    | c :: _ =>
        walk (entries f) (if N.eqb c sep then [] else cwd f) (components p)
    end.

Definition chdir (p : str) (f : fs) : result fs :=
  match locate f p with
  | Ok q =>
      match kind_at (entries f) q with
      | Some (Dir _ _ true) => Ok {| entries := entries f; cwd := q |}
      | Some (Dir _ _ false) => Err PermissionError
      | Some _ => Err NotADirectoryError
      | None => Err FileNotFoundError
      end
  | Err e => Err e
  end.

(** The names of the entries of the directory [d], in the order of the list. *)
Fixpoint children (es : list (path * kind)) (d : path) : list str :=
  match es with
  | [] => []
  | (q, _) :: es' =>
      match rev q with
      | name :: rparent =>
          if path_eqb (rev rparent) d then name :: children es' d
          else children es' d
      | [] => children es' d
      end
  end.

Definition listdir (f : fs) : result (list str) :=
  match kind_at (entries f) (cwd f) with
  | Some (Dir true _ _) => Ok (children (entries f) (cwd f))
  | Some (Dir false _ _) => Err PermissionError
  | Some _ => Err NotADirectoryError
  | None => Err FileNotFoundError
  end.

Definition isdir (p : str) (f : fs) : bool :=
  match locate f p with
  | Ok q =>
      match kind_at (entries f) q with
      | Some (Dir _ _ _) => true
      | _ => false
      end
  | Err _ => false
  end.

Definition isfile (p : str) (f : fs) : bool :=
  match locate f p with
  | Ok q =>
      match kind_at (entries f) q with
      | Some File => true
      | _ => false
      end
  | Err _ => false
  end.

(** A name an entry of a directory can have. *)
Definition component (name : str) : bool :=
  negb (str_eqb name []) && negb (str_eqb name dot)
  && negb (str_eqb name dotdot) && negb (mem sep name) && negb (mem 0%N name).

(** [q] lies at or under [old]. *)
Definition has_prefix (old q : path) : bool :=
  path_eqb old (firstn (length old) q).

Definition move (old new : path) (es : list (path * kind))
  : list (path * kind) :=
  map (fun e => if has_prefix old (fst e)
                then (new ++ skipn (length old) (fst e), snd e) else e) es.

Definition remove (p : path) (es : list (path * kind))
  : list (path * kind) :=
  filter (fun e => negb (path_eqb (fst e) p)) es.

Definition is_dir (k : kind) : bool :=
  match k with
  | Dir _ _ _ => true
  | _ => false
  end.

(** [os.rename(src, dst)] for two names of the working directory. *)
Definition rename (src dst : str) (f : fs) : result fs :=
  let es := entries f in
  let here := cwd f in
  if mem 0%N src || mem 0%N dst then Err ValueError
  else if str_eqb src [] || str_eqb dst [] then Err FileNotFoundError
  else if negb (component src) || negb (component dst) then Err OSError
  else
    match kind_at es here with
    | Some (Dir _ w true) =>
        match lookup es (here ++ [src]) with
        | None => Err FileNotFoundError
        | Some k =>
            if str_eqb src dst then Ok f
            else if negb w then Err PermissionError
            else
              match lookup es (here ++ [dst]) with
              | None =>
                  Ok {| entries := move (here ++ [src]) (here ++ [dst]) es;
                        cwd := here |}
              | Some k' =>
                  if is_dir k && negb (is_dir k') then Err NotADirectoryError
                  else if negb (is_dir k) && is_dir k' then Err IsADirectoryError
                  else if is_dir k'
                          && negb (Nat.eqb (length (children es (here ++ [dst]))) 0)
                  then Err OSError            (* directory not empty *)
                  else
                    Ok {| entries := move (here ++ [src]) (here ++ [dst])
                                          (remove (here ++ [dst]) es);
                          cwd := here |}
              end
        end
    | Some (Dir _ _ false) => Err PermissionError
    | Some _ => Err NotADirectoryError
    | None => Err FileNotFoundError
    end.

(** The path string of an absolute path. *)
Definition getcwd_path (p : path) : str :=
  match p with
  | [] => [sep]
  | _ => concat (map (cons sep) p)
  end.

(** [os.getcwd()] *)
Definition getcwd (f : fs) : str := getcwd_path (cwd f).

#[export] Instance os : OS fs := {
  os_chdir := chdir;
  os_listdir := listdir;
  os_path_isdir := isdir;
  os_path_isfile := isfile;
  os_rename := rename;
  os_getcwd := getcwd
}.

(** The longest path of the file system. *)
Fixpoint depth (es : list (path * kind)) : nat :=
  match es with
  | [] => 0
  | e :: es' => Nat.max (length (fst e)) (depth es')
  end.

(** Every name in the file system is a name an entry can have. *)
Definition named_path (p : path) : Prop :=
  Forall (fun c => component c = true) p.

Definition named_entries (es : list (path * kind)) : Prop :=
  Forall (fun e => fst e <> [] /\ named_path (fst e)) es.

Definition well_named (f : fs) : Prop :=
  named_path (cwd f) /\ named_entries (entries f).

(** The file system of the state has plain names and depth at most [D]. *)
Definition bounded (D : nat) (s : state fs) : Prop :=
  well_named (st_world s) /\ depth (entries (st_world s)) <= D.

(** [d] is the path recorded for an entry of the directory [p]. *)
Definition recorded_under (p : path) (d : str) : Prop :=
  exists name, component name = true /\ d = path_join (getcwd_path p) name.

(** The state of the loop over the listing of the directory [p]. *)
Definition scanning (D : nat) (p : path) (acc : Z * list str)
    (s : state fs) : Prop :=
  (cwd (st_world s) = p /\ well_named (st_world s)
   /\ depth (entries (st_world s)) <= D)
  /\ Forall (recorded_under p) (snd acc).

Definition start (es : list (path * kind)) : state fs :=
  {| st_world := {| entries := es; cwd := [] |}; st_stdout := [] |}.

Definition rwx : kind := Dir true true true.

(** The tree of the specification's examples, under the root. *)
Definition tmp_x : list (path * kind) :=
  [ ([py "tmp"], rwx);
    ([py "tmp"; py "x"], rwx);
    ([py "tmp"; py "x"; py "a b.txt"], File);
    ([py "tmp"; py "x"; py "ab.txt"], File);
    ([py "tmp"; py "x"; py "a b c.txt"], File) ].

Definition nested : list (path * kind) :=
  [ ([py "foo bar"], rwx);
    ([py "foo bar"; py "ba z.txt"], File);
    ([py "foo bar"; py "baz.txt"], File) ].

(** A directory that may be entered but not listed, and one whose entries
    may not be changed. *)
Definition closed : list (path * kind) :=
  [ ([py "locked"], Dir false true true);
    ([py "locked"; py "a b"], File);
    ([py "fixed"], Dir true false true);
    ([py "fixed"; py "a b"], File);
    ([py "fixed"; py "c d"], rwx);
    ([py "fixed"; py "c d"; py "e f"], File) ].

Definition at_dir (es : list (path * kind)) (p : path) : state fs :=
  {| st_world := {| entries := es; cwd := p |}; st_stdout := [] |}.

End SimFS.

(* ================================================================= *)
(** ** The prompts and [main]

    The console of a run: the state of the script, the keys still to be
    read by [input], and the prompts [input] has shown.  A key is a line
    typed or an interrupt; when no key is left the input has ended.
    [str.lower] is left open: the prompts are defined and verified for
    every lowering of strings, and [ascii_lower] is the one of ASCII. *)

Section Prompts.

Context {world : Type} {os : OS world}.

Variable lower : str -> str.

(** What [expected_input] can be. *)
Inductive expected :=
| NoExpected                               (* [None] *)
| Choices (values : list str)              (* a list or a tuple *)
| Callable (f : str -> world -> bool)      (* a function of the answer *)
| Text (value : str).                      (* a string *)

(** The truth value of a string. *)
Definition nonempty (s : str) : bool :=
  match s with
  | [] => false
  | _ => true
  end.

(** The truth value of [expected_input]. *)
Definition truthy (expected_input : expected) : bool :=
  match expected_input with
  | NoExpected => false
  | Choices values => negb (Nat.eqb (length values) 0)
  | Callable _ => true
  | Text value => nonempty value
  end.

(** [check_answer(answer, expected_input, allow_empty_answer)] *)
Definition check_answer (answer : str) (expected_input : expected)
    (allow_empty_answer : bool) (w : world) : bool :=
  match expected_input with
  | Choices values => existsb (str_eqb (lower answer)) values
  | Callable f =>
      let temp :=
        (nonempty answer && allow_empty_answer)
        || (nonempty answer && negb allow_empty_answer)
        || (negb (nonempty answer) && negb allow_empty_answer) in
      if temp then f answer w else true
  | Text value => str_eqb (lower answer) value
  | NoExpected => false
  end.

Inductive key :=
| Line (text : str)
| Interrupt.

Record console := {
  con_state : state world;
  con_stdin : list key;
  con_prompts : list str
}.

(** How a prompt ends: with an answer, or with [exit()]. *)
Inductive prompted (A : Type) :=
| Answer (a : A) (c : console)
| Exit (c : console).
Arguments Exit {A} c.

(** [str.lstrip()] and [str.strip()] *)
Fixpoint lstrip (s : str) : str :=
  match s with
  | c :: s' => if Re.is_space c then lstrip s' else s
  | [] => []
  end.

Definition strip (s : str) : str := rev (lstrip (rev (lstrip s))).

Definition CBEIGE : str := [27%N] ++ py "[36m".

(** [print(text)] *)
Definition print (text : str) (s : state world) : state world :=
  {| st_world := st_world s; st_stdout := st_stdout s ++ [text] |}.

(** [if error_message: print_error_message(error_message)] *)
Definition complain (error_message : option str) (s : state world)
  : state world :=
  match error_message with
  | Some message =>
      if nonempty message then
        match print_error_message message s with
        | Done _ s' => s'
        | _ => s
        end
      else s
  | None => s
  end.

(** The handler of [KeyboardInterrupt] and [EOFError]: [print()], then
    [exit()]. *)
Definition leave {A} (s : state world) (keys : list key) (shown : list str)
  : prompted A :=
  Exit {| con_state := print [] s; con_stdin := keys; con_prompts := shown |}.

(** The [while] loop of [prompt_for_answer], entered with a wrong answer:
    [keys] is what is left of the input. *)
Fixpoint ask_again (prompt : str) (expected_input : expected)
    (error_message : option str) (allow_empty_answer : bool)
    (keys : list key) (s : state world) (shown : list str) : prompted str :=
  let s := complain error_message s in
  let shown := shown ++ [CBEIGE ++ prompt ++ CEND] in
  match keys with
  | Line answer :: keys' =>
      if check_answer answer expected_input allow_empty_answer (st_world s)
      then Answer answer
             {| con_state := s; con_stdin := keys'; con_prompts := shown |}
      else ask_again prompt expected_input error_message allow_empty_answer
                     keys' s shown
  | Interrupt :: keys' => leave s keys' shown
  | [] => leave s [] shown
  end.

(** [prompt_for_answer(prompt, expected_input, error_message,
    allow_empty_answer)] *)
Definition prompt_for_answer (prompt : str) (expected_input : expected)
    (error_message : option str) (allow_empty_answer : bool) (c : console)
  : prompted str :=
  let s := con_state c in
  let shown := con_prompts c ++ [CBEIGE ++ prompt ++ CEND] in
  match con_stdin c with
  | Line answer :: keys =>
      let answer := strip answer in
      if truthy expected_input then
        if check_answer answer expected_input allow_empty_answer (st_world s)
        then Answer answer
               {| con_state := s; con_stdin := keys; con_prompts := shown |}
        else ask_again prompt expected_input error_message allow_empty_answer
                       keys s shown
      else Answer answer
             {| con_state := s; con_stdin := keys; con_prompts := shown |}
  | Interrupt :: keys => leave s keys shown
  | [] => leave s [] shown
  end.

(** The arguments [main] collects for [rename_files]. *)
Record kwargs := {
  kw_directory : str;
  kw_search : str;
  kw_replace : str;
  kw_sub_directories : bool;
  kw_rename_directories : bool
}.

Definition then_prompt {A B} (p : prompted A) (k : A -> console -> prompted B)
  : prompted B :=
  match p with
  | Answer a c => k a c
  | Exit c => Exit c
  end.

Definition yes_or_no : list str := [py "yes"; py "y"; py "no"; py "n"].

Definition is_yes (answer : str) : bool :=
  existsb (str_eqb (lower answer)) [py "yes"; py "y"].

Definition or_default (answer default : str) : str :=
  if nonempty answer then answer else default.

(** [main], up to [kwargs]: the five prompts and their defaults. *)
Definition main_kwargs (c : console) : prompted kwargs :=
  then_prompt
    (prompt_for_answer
       (py "Enter directory (if left empty, default is current directory): ")
       (Callable os_path_isdir)
       (Some (py "Please enter a valid directory")) true c)
    (fun directory c =>
  let directory := or_default directory (py ".") in
  then_prompt
    (prompt_for_answer
       (py "Enter character(s) to replace in filenames(if left empty, default is the space character): ")
       NoExpected None false c)
    (fun search_for c =>
  let search_for := or_default search_for (py " ") in
  then_prompt
    (prompt_for_answer
       (py "Enter character(s) to be used for replacement(if left empty, default is the underscore(_)): ")
       NoExpected None false c)
    (fun replace_with c =>
  let replace_with := or_default replace_with (py "_") in
  then_prompt
    (prompt_for_answer
       (py "Do you want to rename files in sub directories too? yes(y)/no(n): ")
       (Choices yes_or_no)
       (Some (py "Please enter either yes(y) or no(n)")) false c)
    (fun sub_directories c =>
  let sub_directories := is_yes sub_directories in
  then_prompt
    (prompt_for_answer
       (py "Do you want to rename directories too? yes(y)/no(n): ")
       (Choices yes_or_no)
       (Some (py "Please enter either yes(y) or no(n)")) false c)
    (fun rename_directories c =>
  let rename_directories := is_yes rename_directories in
  Answer {| kw_directory := directory;
            kw_search := search_for;
            kw_replace := replace_with;
            kw_sub_directories := sub_directories;
            kw_rename_directories := rename_directories |} c))))).

(** [str(counter)] *)
Definition str_of_int (z : Z) : str :=
  py (DecimalString.NilEmpty.string_of_int (Z.to_int z)).

(** [s.center(width, fillchar)] *)
Definition center (width : nat) (fillchar : char) (s : str) : str :=
  if Nat.leb width (length s) then s
  else
    let marg := width - length s in
    let left := Nat.div marg 2
                + (if Nat.odd marg && Nat.odd width then 1 else 0) in
    repeat fillchar left ++ s ++ repeat fillchar (marg - left).

Definition how_many (counter : Z) : str :=
  if Z.eqb counter 1 then py " 1 file renamed "
  else py " " ++ str_of_int counter ++ py " files renamed ".

(** How [main] ends: it returns, [exit()] was called, an exception left
    it, or the model ran out of fuel. *)
Inductive finished :=
| Finished (c : console)
| Exited (c : console)
| Crashed (e : exc) (c : console)
| Unfinished.

(** [main()]; [fuel] is the fuel of [rename_files]. *)
Definition main (fuel : nat) (c : console) : finished :=
  match main_kwargs c with
  | Exit c' => Exited c'
  | Answer kw c' =>
      match rename_files fuel (kw_directory kw) (kw_search kw)
                         (kw_replace kw) (kw_sub_directories kw)
                         (kw_rename_directories kw) 0 (con_state c') with
      | Done counter s =>
          Finished
            {| con_state :=
                 print ([10%N] ++ center 100 (ch "*") (how_many counter)
                        ++ [10%N]) s;
               con_stdin := con_stdin c';
               con_prompts := con_prompts c' |}
      | Raised e s =>
          Crashed e {| con_state := s; con_stdin := con_stdin c';
                       con_prompts := con_prompts c' |}
      | OutOfFuel => Unfinished
      end
  end.

End Prompts.

Arguments Exit {world A} c.
Arguments Answer {world A} a c.
Arguments console : clear implicits.
Arguments expected : clear implicits.
Arguments NoExpected {world}.
Arguments Choices {world} values.
Arguments Text {world} value.

(** [str.lower] on ASCII strings. *)
Definition ascii_lower (s : str) : str :=
  map (fun c => if (N.leb 65 c && N.leb c 90)%bool then (c + 32)%N else c) s.

(* ================================================================= *)
(** ** Strings: equality, prefixes, substrings *)

Section StringFacts.

Lemma str_eqb_eq (a b : str) : str_eqb a b = true <-> a = b.
Proof.
  revert b; induction a as [|x a IH]; intros [|y b]; simpl; split;
    try congruence; try reflexivity.
  - rewrite andb_true_iff, N.eqb_eq, IH. intros [-> ->]; reflexivity.
  - intros H; injection H as -> ->. now rewrite N.eqb_refl, (proj2 (IH b)).
Qed.

Lemma str_eqb_refl (a : str) : str_eqb a a = true.
Proof. now apply str_eqb_eq. Qed.

Lemma str_eqb_neq (a b : str) : str_eqb a b = false <-> a <> b.
Proof.
  rewrite <- str_eqb_eq. destruct (str_eqb a b); split; congruence.
Qed.

Lemma startswith_app (s t : str) : startswith s (s ++ t) = true.
Proof. induction s; simpl; [reflexivity|]. now rewrite N.eqb_refl. Qed.

Lemma startswith_split (s t : str) :
  startswith s t = true -> t = s ++ skipn (length s) t.
Proof.
  revert t; induction s as [|x s IH]; intros [|y t]; simpl;
    try congruence; try reflexivity.
  rewrite andb_true_iff, N.eqb_eq. intros [-> H]. f_equal. now apply IH.
Qed.

Lemma startswith_length (s t : str) :
  startswith s t = true -> length s <= length t.
Proof.
  intros H. apply startswith_split in H.
  apply (f_equal (@length _)) in H. rewrite length_app in H. lia.
Qed.

Lemma startswith_iff (s t : str) :
  startswith s t = true <-> exists u, t = s ++ u.
Proof.
  split.
  - intros H. eexists. now apply startswith_split.
  - intros [u ->]. apply startswith_app.
Qed.

Lemma contains_iff (s t : str) :
  contains s t = true <-> exists u v, t = u ++ s ++ v.
Proof.
  induction t as [|c t IH]; simpl.
  - rewrite orb_false_r, startswith_iff. split.
    + intros [u H]. exists [], u. exact H.
    + intros (u & v & H). destruct u; simpl in H.
      * now exists v.
      * discriminate.
  - rewrite orb_true_iff, startswith_iff, IH. split.
    + intros [[u H]|(u & v & H)].
      * exists [], u. exact H.
      * exists (c :: u), v. simpl. now rewrite H.
    + intros (u & v & H). destruct u as [|x u]; simpl in H.
      * left. now exists v.
      * right. injection H as _ H. now exists u, v.
Qed.

Lemma contains_single (c : char) (t : str) : contains [c] t = mem c t.
Proof.
  induction t as [|x t IH]; simpl; [reflexivity|].
  rewrite IH, andb_true_r. unfold mem. simpl.
  now rewrite (N.eqb_sym c x).
Qed.

Lemma mem_app (c : char) (a b : str) : mem c (a ++ b) = mem c a || mem c b.
Proof. unfold mem. apply existsb_app. Qed.

Lemma join_cons (sp p : str) (ps : list str) :
  ps <> [] -> join sp (p :: ps) = p ++ sp ++ join sp ps.
Proof. destruct ps; [congruence | reflexivity]. Qed.

End StringFacts.

(* ================================================================= *)
(** ** The [re] module: escaping, matching, splitting *)

Section ReFacts.

Import Re.

Lemma mem_true_In (c : char) (l : str) : mem c l = true -> In c l.
Proof.
  unfold mem. rewrite existsb_exists. intros (x & Hx & E).
  apply N.eqb_eq in E. now subst.
Qed.

Lemma mem_false_neq (c x : char) (l : str) :
  mem c l = false -> In x l -> N.eqb c x = false.
Proof.
  intros H Hx. destruct (N.eqb c x) eqn:E; [|reflexivity].
  assert (mem c l = true); [|congruence].
  unfold mem. apply existsb_exists. now exists x.
Qed.

(** Every character the parser treats as special is one [escape] escapes. *)
Lemma parser_special_escaped (c : char) :
  mem c special_chars = false -> mem c SPECIAL_CHARS = false.
Proof.
  intros H. destruct (mem c SPECIAL_CHARS) eqn:E; [|reflexivity].
  apply mem_true_In in E. simpl in E.
  repeat (destruct E as [<-|E]; [discriminate H|]). contradiction.
Qed.

Lemma repeat_char_escaped (c : char) :
  mem c special_chars = false -> mem c REPEAT_CHARS = false.
Proof.
  intros H. destruct (mem c REPEAT_CHARS) eqn:E; [|reflexivity].
  apply mem_true_In in E. simpl in E.
  repeat (destruct E as [<-|E]; [discriminate H|]). contradiction.
Qed.

(** An escaped special character is read as itself. *)
Lemma atom_of_escaped (c : char) :
  mem c special_chars = true -> atom_of_token (Esc c) = Some (Lit c).
Proof.
  intros H. apply mem_true_In in H. simpl in H.
  repeat (destruct H as [<-|H]; [reflexivity|]). contradiction.
Qed.

Lemma atom_of_plain (c : char) :
  mem c special_chars = false -> atom_of_token (Chr c) = Some (Lit c).
Proof.
  intros H. unfold atom_of_token.
  rewrite (@mem_false_neq c (ch ".") _ H) by (vm_compute; tauto).
  now rewrite parser_special_escaped.
Qed.

Lemma tokenize_escape (s : str) :
  tokenize (escape s) = Some (map escaped_token s).
Proof.
  induction s as [|c s IH]; [reflexivity|].
  cbn [escape map]. unfold escaped_token at 1.
  destruct (mem c special_chars) eqn:E; cbn [tokenize].
  - rewrite N.eqb_refl, IH. reflexivity.
  - rewrite (@mem_false_neq c backslash _ E) by (vm_compute; tauto).
    rewrite IH. reflexivity.
Qed.

Lemma atom_of_escaped_token (c : char) :
  atom_of_token (escaped_token c) = Some (Lit c).
Proof.
  unfold escaped_token. destruct (mem c special_chars) eqn:E.
  - now apply atom_of_escaped.
  - now apply atom_of_plain.
Qed.

Lemma parse_escaped (s : str) :
  parse (map escaped_token s) = Some (literal s).
Proof.
  induction s as [|c s IH]; [reflexivity|].
  cbn [map parse]. rewrite atom_of_escaped_token.
  destruct s as [|d s]; [reflexivity|].
  cbn [map] in *. unfold escaped_token at 1.
  destruct (mem d special_chars) eqn:E.
  - fold (escaped_token d). rewrite IH. reflexivity.
  - rewrite (repeat_char_escaped d E).
    replace (Chr d) with (escaped_token d)
      by (unfold escaped_token; now rewrite E).
    rewrite IH. reflexivity.
Qed.

(** [re.escape] makes a pattern of literal characters: no character of the
    search token is read as a metacharacter. *)
Lemma compile_escape (s : str) : compile (escape s) = Some (literal s).
Proof. unfold compile. rewrite tokenize_escape. apply parse_escaped. Qed.

Lemma compile_whitespace_run :
  compile ([backslash] ++ py "s+") = Some [(Whitespace, Plus)].
Proof. reflexivity. Qed.

(** A pattern of literal characters matches exactly its own text. *)
Lemma match_here_literal (s t : str) :
  match_here (literal s) t = if startswith s t then Some (length s) else None.
Proof.
  revert t; induction s as [|x s IH]; intros t; [reflexivity|].
  destruct t as [|c t]; [reflexivity|].
  cbn [literal map match_here atom_matches startswith length].
  fold (literal s). rewrite (N.eqb_sym x c). destruct (N.eqb c x); simpl.
  - rewrite IH. now destruct (startswith s t).
  - reflexivity.
Qed.

(** [\s+] matches the whole run of whitespace at the start, if any. *)
Lemma match_here_whitespace_run (t : str) :
  match_here [(Whitespace, Plus)] t =
  match leading_space t with
  | O => None
  | n => Some n
  end.
Proof.
  assert (M : forall u,
    (fix many (s : str) : option nat :=
       match s with
       | c :: s' =>
           if atom_matches Whitespace c then
             match many s' with
             | Some n => Some (S n)
             | None => match_here [] s
             end
           else match_here [] s
       | [] => match_here [] s
       end) u = Some (leading_space u)).
  { induction u as [|c u IH]; [reflexivity|].
    simpl. destruct (is_space c); [|reflexivity].
    simpl in IH. rewrite IH. reflexivity. }
  destruct t as [|c t]; [reflexivity|].
  cbn [match_here atom_matches leading_space].
  destruct (is_space c); [|reflexivity].
  rewrite M. reflexivity.
Qed.

Lemma split_loop_not_nil fuel p ma s : split_loop fuel p ma s <> [].
Proof.
  destruct fuel; simpl; [congruence|].
  destruct (search p ma s) as [[i len]|]; congruence.
Qed.

(** Splitting and joining, for a pattern whose matches are never empty:
    whatever function [f] unfolds along the leftmost match as the loop of
    [split] does, is what joining the pieces computes. *)
Lemma join_split_regex (p : regex) (r : str) (f : str -> str) :
  (forall n ma,
      match search p ma n with
      | Some (i, len) =>
          1 <= i + len /\ i + len <= length n /\
          f n = firstn i n ++ r ++ f (skipn (i + len) n)
      | None => f n = n
      end) ->
  forall n, join r (split_regex p n) = f n.
Proof.
  intros H.
  assert (L : forall fuel n ma,
             length n < fuel -> join r (split_loop fuel p ma n) = f n).
  { induction fuel as [|fuel IH]; intros n ma Hlen; [lia|].
    simpl. specialize (H n ma).
    destruct (search p ma n) as [[i len]|].
    - destruct H as (H1 & H2 & ->).
      rewrite join_cons by apply split_loop_not_nil.
      rewrite IH; [reflexivity|]. rewrite length_skipn. lia.
    - simpl. now rewrite H. }
  intros n. apply L. lia.
Qed.

End ReFacts.

(* ================================================================= *)
(** ** [get_new_filename] against the specification *)

Section Transform.

Import Re Spec.

Lemma replace_from_skipn (s r : str) (n : str) (k : nat) :
  replace_from s r k n = replace_all s r (skipn k n).
Proof.
  revert k; induction n as [|c n IH]; intros [|k]; try reflexivity.
  cbn [replace_from skipn]. apply IH.
Qed.

Lemma replace_all_match (s r v : str) :
  s <> [] -> replace_all s r (s ++ v) = r ++ replace_all s r v.
Proof.
  intros Hs. destruct s as [|x s]; [congruence|].
  unfold replace_all at 1. cbn [app replace_from].
  change (x :: s ++ v) with ((x :: s) ++ v). rewrite startswith_app.
  rewrite replace_from_skipn. cbn [length Nat.sub]. rewrite Nat.sub_0_r.
  rewrite skipn_app, skipn_all, Nat.sub_diag. reflexivity.
Qed.

Lemma replace_all_step (s r : str) (c : char) (n : str) :
  startswith s (c :: n) = false ->
  replace_all s r (c :: n) = c :: replace_all s r n.
Proof. intros H. unfold replace_all. cbn [replace_from]. now rewrite H. Qed.

Lemma replace_all_absent (s r n : str) :
  contains s n = false -> replace_all s r n = n.
Proof.
  induction n as [|c n IH]; [reflexivity|].
  cbn [contains]. rewrite orb_false_iff. intros [H1 H2].
  rewrite replace_all_step by exact H1. now rewrite IH.
Qed.

Lemma search_literal (s : str) (ma : bool) (n : str) :
  s <> [] ->
  search (literal s) ma n =
  if startswith s n then Some (0, length s)
  else
    match n with
    | [] => None
    | _ :: n' =>
        match search (literal s) false n' with
        | Some (i, len) => Some (S i, len)
        | None => None
        end
    end.
Proof.
  intros Hs. destruct n as [|c n]; cbn [search]; unfold match_at;
    rewrite match_here_literal.
  - destruct s; [congruence|reflexivity].
  - destruct (startswith s (c :: n)); [|reflexivity].
    destruct s; [congruence|reflexivity].
Qed.

(** Along the leftmost occurrence, replacing unfolds as the loop of
    [split] does. *)
Lemma search_literal_replace (s r : str) :
  s <> [] ->
  forall n ma,
    match search (literal s) ma n with
    | Some (i, len) =>
        1 <= i + len /\ i + len <= length n /\
        replace_all s r n =
        firstn i n ++ r ++ replace_all s r (skipn (i + len) n)
    | None => replace_all s r n = n
    end.
Proof.
  intros Hs. induction n as [|c n IH]; intros ma;
    rewrite search_literal by exact Hs.
  - destruct s; [congruence|reflexivity].
  - destruct (startswith s (c :: n)) eqn:E.
    + pose proof (startswith_length _ _ E) as L.
      assert (1 <= length s) by (destruct s; [congruence|simpl; lia]).
      repeat split; try lia.
      cbn [firstn Nat.add app].
      rewrite (startswith_split _ _ E) at 1.
      now apply replace_all_match.
    + specialize (IH false). rewrite replace_all_step by exact E.
      destruct (search (literal s) false n) as [[i len]|].
      * destruct IH as (H1 & H2 & ->). cbn [length firstn Nat.add skipn app].
        repeat split; try lia.
      * now rewrite IH.
Qed.

Lemma collapse_in_run (r n : str) :
  collapse_from is_space r true n = collapse_whitespace r (skipn (leading_space n) n).
Proof.
  induction n as [|c n IH]; [reflexivity|].
  cbn [collapse_from leading_space]. destruct (is_space c) eqn:E.
  - cbn [app skipn]. exact IH.
  - unfold collapse_whitespace. cbn [skipn collapse_from]. now rewrite E.
Qed.

Lemma leading_space_length (n : str) : leading_space n <= length n.
Proof.
  induction n as [|c n IH]; simpl; [lia|]. destruct (is_space c); simpl; lia.
Qed.

Lemma search_whitespace_run (ma : bool) (n : str) :
  search [(Whitespace, Plus)] ma n =
  match leading_space n with
  | S k => Some (0, S k)
  | O =>
      match n with
      | [] => None
      | _ :: n' =>
          match search [(Whitespace, Plus)] false n' with
          | Some (i, len) => Some (S i, len)
          | None => None
          end
      end
  end.
Proof.
  destruct n as [|c n]; cbn [search]; unfold match_at;
    rewrite match_here_whitespace_run; [reflexivity|].
  destruct (leading_space (c :: n)); reflexivity.
Qed.

Lemma search_whitespace_collapse (r : str) :
  forall n ma,
    match search [(Whitespace, Plus)] ma n with
    | Some (i, len) =>
        1 <= i + len /\ i + len <= length n /\
        collapse_whitespace r n =
        firstn i n ++ r ++ collapse_whitespace r (skipn (i + len) n)
    | None => collapse_whitespace r n = n
    end.
Proof.
  induction n as [|c n IH]; intros ma; rewrite search_whitespace_run;
    [reflexivity|].
  pose proof (leading_space_length (c :: n)) as L.
  cbn [leading_space] in *. destruct (is_space c) eqn:E.
  - repeat split; try lia.
    unfold collapse_whitespace at 1. cbn [collapse_from]. rewrite E.
    cbn [firstn Nat.add skipn app]. now rewrite collapse_in_run.
  - specialize (IH false).
    assert (C : collapse_whitespace r (c :: n) = c :: collapse_whitespace r n).
    { unfold collapse_whitespace. cbn [collapse_from]. now rewrite E. }
    rewrite C.
    destruct (search [(Whitespace, Plus)] false n) as [[i len]|].
    + destruct IH as (H1 & H2 & ->). cbn [length firstn Nat.add skipn app].
      repeat split; try lia.
    + now rewrite IH.
Qed.

Lemma pattern_of_space : pattern_of (py " ") = [backslash] ++ py "s+".
Proof. reflexivity. Qed.

Lemma pattern_of_other (s : str) : s <> py " " -> pattern_of s = escape s.
Proof.
  intros H. unfold pattern_of. now rewrite (proj2 (str_eqb_neq _ _) H).
Qed.

(** The pattern always compiles: [get_new_filename] never raises. *)
Lemma get_new_filename_total (n s r : str) :
  exists m, get_new_filename n s r = Some m.
Proof.
  unfold get_new_filename, pattern_of, split.
  destruct (str_eqb s (py " ")).
  - rewrite compile_whitespace_run. eauto.
  - rewrite compile_escape. eauto.
Qed.

Lemma get_new_filename_literal (n s r : str) :
  s <> [] -> s <> py " " ->
  get_new_filename n s r = Some (replace_all s r n).
Proof.
  intros Hs Hsp. unfold get_new_filename, split.
  rewrite pattern_of_other by exact Hsp. rewrite compile_escape.
  f_equal. apply join_split_regex. now apply search_literal_replace.
Qed.

Lemma get_new_filename_space (n r : str) :
  get_new_filename n (py " ") r = Some (collapse_whitespace r n).
Proof.
  unfold get_new_filename, split.
  rewrite pattern_of_space, compile_whitespace_run.
  f_equal. apply join_split_regex. apply search_whitespace_collapse.
Qed.

Lemma collapse_no_space (r n : str) :
  forallb (fun c => negb (is_space c)) n = true ->
  collapse_whitespace r n = n.
Proof.
  unfold collapse_whitespace. induction n as [|c n IH]; [reflexivity|].
  cbn [forallb collapse_from]. rewrite andb_true_iff. intros [H1 H2].
  destruct (is_space c); [discriminate|]. now rewrite IH.
Qed.

(** Replacing cannot lengthen a name when the replacement is no longer
    than the token, nor shorten it when it is no shorter. *)
Lemma replace_from_length_le (s r : str) :
  length r <= length s ->
  forall n k, length (replace_from s r k n) + Nat.min k (length n) <= length n.
Proof.
  intros Hr. induction n as [|c n IH]; intros k; [simpl; lia|].
  destruct k as [|k]; cbn [replace_from].
  - destruct (startswith s (c :: n)) eqn:E.
    + apply startswith_length in E. cbn [length] in *.
      rewrite length_app. specialize (IH (length s - 1)). lia.
    + specialize (IH 0). cbn [length]. lia.
  - specialize (IH k). cbn [length]. lia.
Qed.

Lemma replace_from_length_ge (s r : str) :
  s <> [] -> length s <= length r ->
  forall n k, length n <= length (replace_from s r k n) + Nat.min k (length n).
Proof.
  intros Hs Hr. assert (1 <= length s) by (destruct s; [congruence|simpl; lia]).
  induction n as [|c n IH]; intros k; [simpl; lia|].
  destruct k as [|k]; cbn [replace_from].
  - destruct (startswith s (c :: n)) eqn:E.
    + apply startswith_length in E. cbn [length] in *.
      rewrite length_app. specialize (IH (length s - 1)). lia.
    + specialize (IH 0). cbn [length]. lia.
  - specialize (IH k). cbn [length]. lia.
Qed.

(** Replacing changes every name the token occurs in, unless the
    replacement is the token itself. *)
Lemma replace_all_fixed (s r n : str) :
  s <> [] -> contains s n = true -> replace_all s r n = n -> r = s.
Proof.
  intros Hs. induction n as [|c n IH]; cbn [contains].
  - rewrite orb_false_r. destruct s; [congruence|discriminate].
  - destruct (startswith s (c :: n)) eqn:E.
    + intros _ H. rewrite (startswith_split _ _ E) in H.
      rewrite replace_all_match in H by exact Hs.
      set (v := skipn (length s) (c :: n)) in *.
      assert (L : length r = length s).
      { pose proof (f_equal (@length _) H) as HL. rewrite !length_app in HL.
        destruct (Nat.le_ge_cases (length r) (length s)) as [C|C].
        - pose proof (@replace_from_length_le s r C v 0).
          unfold replace_all in HL. simpl in *. lia.
        - pose proof (@replace_from_length_ge s r Hs C v 0).
          unfold replace_all in HL. simpl in *. lia. }
      apply (f_equal (firstn (length r))) in H.
      rewrite firstn_app, firstn_all, Nat.sub_diag, firstn_O, app_nil_r in H.
      rewrite L, firstn_app, firstn_all, Nat.sub_diag, firstn_O, app_nil_r in H.
      exact H.
    + rewrite orb_false_l. intros C H.
      rewrite replace_all_step in H by exact E. injection H as H. now apply IH.
Qed.

(** With a one-character token that the replacement does not hold, no
    occurrence is left after replacing. *)
Lemma replace_all_single_clean (c : char) (r n : str) :
  mem c r = false -> mem c (replace_all [c] r n) = false.
Proof.
  intros Hr. unfold replace_all. induction n as [|x n IH]; [reflexivity|].
  cbn [replace_from startswith length Nat.sub]. rewrite andb_true_r.
  destruct (N.eqb c x) eqn:E.
  - rewrite mem_app, Hr. exact IH.
  - unfold mem in *. cbn [existsb]. now rewrite E.
Qed.

End Transform.

Section TransformMore.

Import Re Spec.

Lemma replace_all_same (s : str) :
  s <> [] -> forall n, replace_all s s n = n.
Proof.
  intros Hs.
  assert (L : forall k n, length n <= k -> replace_all s s n = n).
  { induction k as [|k IH]; intros [|c n] Hn; try reflexivity; [simpl in Hn; lia|].
    destruct (startswith s (c :: n)) eqn:E.
    - pose proof (startswith_length _ _ E) as Hl.
      rewrite (startswith_split _ _ E) at 1 2.
      rewrite replace_all_match by exact Hs. f_equal.
      apply IH. rewrite length_skipn.
      assert (1 <= length s) by (destruct s; [congruence|simpl; lia]).
      cbn [length] in *. lia.
    - rewrite replace_all_step by exact E. f_equal. apply IH. simpl in Hn. lia. }
  intros n. now apply (L (length n)).
Qed.

Lemma forallb_not_existsb (f : char -> bool) (l : str) :
  forallb (fun c => negb (f c)) l = negb (existsb f l).
Proof.
  induction l as [|c l IH]; [reflexivity|].
  simpl. rewrite IH. now destruct (f c).
Qed.

(** Two classes that agree on the characters of a name collapse it alike. *)
Lemma collapse_from_ext (ws ws' : char -> bool) (r : str) :
  forall n b,
    forallb (fun c => Bool.eqb (ws c) (ws' c)) n = true ->
    collapse_from ws r b n = collapse_from ws' r b n.
Proof.
  induction n as [|c n IH]; intros b; [reflexivity|].
  cbn [forallb collapse_from]. rewrite andb_true_iff. intros [H1 H2].
  apply eqb_prop in H1. rewrite H1. now rewrite !IH.
Qed.

(** A replacement without whitespace leaves no whitespace behind. *)
Lemma collapse_clean (r : str) :
  forallb (fun c => negb (is_space c)) r = true ->
  forall n b,
    forallb (fun c => negb (is_space c)) (collapse_from is_space r b n) = true.
Proof.
  intros Hr. induction n as [|c n IH]; intros b; [reflexivity|].
  cbn [collapse_from]. destruct (is_space c) eqn:E.
  - rewrite forallb_app, IH, andb_true_r. now destruct b.
  - cbn [forallb]. now rewrite E, IH.
Qed.

End TransformMore.

Section Pieces.

Import Re Spec.

Lemma startswith_weaken (s x y : str) :
  startswith s x = true -> startswith s (x ++ y) = true.
Proof.
  rewrite !startswith_iff. intros [u ->]. exists (u ++ y).
  now rewrite app_assoc.
Qed.

Lemma contains_short (s t : str) : length t < length s -> contains s t = false.
Proof.
  induction t as [|c t IH]; intros L; cbn [contains].
  - destruct s; [simpl in L; lia|reflexivity].
  - rewrite IH by (simpl in L; lia). rewrite orb_false_r.
    destruct (startswith s (c :: t)) eqn:E; [|reflexivity].
    apply startswith_length in E. lia.
Qed.

Lemma contains_app_l (s p x : str) :
  contains s (p ++ x) = false -> contains s p = false.
Proof.
  intros H. destruct (contains s p) eqn:E; [|reflexivity].
  apply contains_iff in E. destruct E as (u & v & ->).
  assert (C : contains s ((u ++ s ++ v) ++ x) = true); [|congruence].
  apply contains_iff. exists u, (v ++ x). now rewrite <- !app_assoc.
Qed.

Lemma removelast_last (s : str) : s <> [] -> s = removelast s ++ [last s 0%N].
Proof. intros H. now apply app_removelast_last. Qed.

Lemma removelast_length (s : str) :
  s <> [] -> S (length (removelast s)) = length s.
Proof.
  intros H. rewrite (removelast_last H) at 2. rewrite length_app. simpl. lia.
Qed.

(** What [search] finds is the leftmost occurrence. *)
Lemma search_literal_leftmost (s : str) :
  s <> [] ->
  forall n ma,
    match search (literal s) ma n with
    | Some (i, len) =>
        len = length s /\ i + len <= length n
        /\ startswith s (skipn i n) = true
        /\ contains s (firstn i n ++ removelast s) = false
    | None => contains s n = false
    end.
Proof.
  intros Hs. pose proof (removelast_length Hs) as HL.
  induction n as [|c n IH]; intros ma; rewrite search_literal by exact Hs.
  - destruct s; [congruence|reflexivity].
  - destruct (startswith s (c :: n)) eqn:E.
    + pose proof (startswith_length _ _ E) as L.
      repeat split; [lia|exact E|]. apply contains_short. simpl. lia.
    + specialize (IH false). cbn [contains]. rewrite E. cbn [orb].
      destruct (search (literal s) false n) as [[i len]|]; [|exact IH].
      destruct IH as (H1 & H2 & H3 & H4).
      cbn [length firstn skipn app contains]. repeat split; try lia; auto.
      rewrite H4, orb_false_r.
      destruct (startswith s (c :: firstn i n ++ removelast s)) eqn:F;
        [|reflexivity].
      set (rest := skipn (length s) (skipn i n)).
      assert (S' : s ++ rest = removelast s ++ last s 0%N :: rest).
      { rewrite (removelast_last Hs) at 1. now rewrite <- app_assoc. }
      assert (N : c :: n = (c :: firstn i n ++ removelast s)
                           ++ last s 0%N :: rest).
      { rewrite <- (firstn_skipn i n) at 1.
        rewrite (startswith_split _ _ H3) at 1. fold rest. rewrite S'.
        cbn [app]. now rewrite <- app_assoc. }
      rewrite N, startswith_weaken in E; [discriminate E|exact F].
Qed.

Lemma split_literal_pieces (s : str) :
  s <> [] ->
  forall n, leftmost_pieces s (split_regex (literal s) n) = true.
Proof.
  intros Hs.
  assert (1 <= length s) by (destruct s; [congruence|simpl; lia]).
  assert (L : forall fuel n ma,
             length n < fuel ->
             leftmost_pieces s (split_loop fuel (literal s) ma n) = true).
  { induction fuel as [|fuel IH]; intros n ma Hn; [lia|].
    cbn [split_loop]. pose proof (search_literal_leftmost Hs n ma) as Q.
    destruct (search (literal s) ma n) as [[i len]|].
    - destruct Q as (Q1 & Q2 & Q3 & Q4).
      specialize (IH (skipn (i + len) n) (len =? 0)).
      rewrite length_skipn in IH. specialize (IH ltac:(lia)).
      cbn [leftmost_pieces].
      destruct (split_loop fuel (literal s) (len =? 0) (skipn (i + len) n))
        eqn:P; [now apply split_loop_not_nil in P|].
      now rewrite Q4, IH.
    - cbn [leftmost_pieces]. now rewrite Q. }
  intros n. apply L. lia.
Qed.

Lemma startswith_long (s x y : str) :
  length s <= length x -> startswith s (x ++ y) = startswith s x.
Proof.
  revert x; induction s as [|a s IH]; intros [|b x] L; try reflexivity.
  - simpl in L. lia.
  - cbn [app startswith]. rewrite IH by (simpl in L; lia). reflexivity.
Qed.

Lemma replace_all_piece (s r p v : str) :
  s <> [] -> contains s (p ++ removelast s) = false ->
  replace_all s r (p ++ s ++ v) = p ++ r ++ replace_all s r v.
Proof.
  intros Hs. pose proof (removelast_length Hs) as HL.
  induction p as [|c p IH]; intros C.
  - cbn [app]. now apply replace_all_match.
  - cbn [app contains] in C. apply orb_false_iff in C. destruct C as [C1 C2].
    cbn [app]. rewrite replace_all_step.
    + now rewrite IH.
    + rewrite (removelast_last Hs) at 2.
      rewrite <- app_assoc, app_comm_cons, app_assoc.
      rewrite startswith_long; [exact C1|].
      rewrite length_app. cbn [length]. lia.
Qed.

(** Replacing, said with pieces: a name made of pieces joined by the token,
    where no occurrence of the token starts inside a piece, becomes the
    pieces joined by the replacement. *)
Lemma replace_all_join (s r : str) :
  s <> [] ->
  forall pieces,
    leftmost_pieces s pieces = true ->
    replace_all s r (join s pieces) = join r pieces.
Proof.
  intros Hs. induction pieces as [|p ps IH]; [discriminate|].
  destruct ps as [|q ps].
  - cbn [leftmost_pieces join]. rewrite negb_true_iff.
    apply replace_all_absent.
  - intros H. change (leftmost_pieces s (p :: q :: ps))
      with (negb (contains s (p ++ removelast s))
            && leftmost_pieces s (q :: ps)) in H.
    apply andb_true_iff in H. destruct H as [H1 H2].
    rewrite negb_true_iff in H1.
    rewrite !join_cons by discriminate.
    rewrite replace_all_piece by assumption. now rewrite IH.
Qed.

End Pieces.

Example get_new_filename_ex1 :
  get_new_filename (py "a b  c.txt") (py " ") (py "_") = Some (py "a_b_c.txt").
Proof. reflexivity. Qed.

Example get_new_filename_ex2 :
  get_new_filename (py "a.b.c") (py ".") (py "-") = Some (py "a-b-c").
Proof. reflexivity. Qed.

Example get_new_filename_ex3 :
  get_new_filename (py "abc") [] (py "-") = Some (py "-a-b-c-").
Proof. reflexivity. Qed.

Example get_new_filename_ex4 :
  get_new_filename (py "aaa") (py "aa") (py "b") = Some (py "ba").
Proof. reflexivity. Qed.

(* ================================================================= *)
(** ** The traversal, on every operating system *)

Section ScriptFacts.

Context {world : Type} {os : OS world}.

Lemma outcome_sat_bind {A B} (Q' : A -> state world -> Prop) (Q : B -> state world -> Prop)
      (E : state world -> Prop) (F : Prop) (m : M A) (k : A -> M B) (s : state world) :
  outcome_sat Q' E F (m s) ->
  (forall a s', Q' a s' -> outcome_sat Q E F (k a s')) ->
  outcome_sat Q E F (bind m k s).
Proof.
  unfold bind. destruct (m s); simpl; auto.
Qed.

(** A loop keeps what each turn of its body keeps. *)
Lemma outcome_sat_for_each {A B} (Q : B -> state world -> Prop)
      (E : state world -> Prop) (F : Prop) (body : A -> B -> M B) (xs : list A) :
  (forall x acc s, In x xs -> Q acc s -> outcome_sat Q E F (body x acc s)) ->
  forall acc s, Q acc s -> outcome_sat Q E F (for_each xs body acc s).
Proof.
  induction xs as [|x xs IH]; intros Hb acc s HQ; [exact HQ|].
  cbn [for_each]. apply outcome_sat_bind with (Q' := Q).
  - apply Hb; [now left | exact HQ].
  - intros a s' Ha. apply IH; [|exact Ha].
    intros y acc' s'' Hy. apply Hb. now right.
Qed.

(** What one turn of the loop over the listing does, case by case. *)
Lemma scan_entry_cases (search replace : str) (rd : bool) (file : str)
      (counter : Z) (directories : list str) (s : state world) :
  scan_entry search replace rd file (counter, directories) s =
  let w := st_world s in
  let attempt (recorded : str -> world -> list str) :=
    match get_new_filename file search replace with
    | None => Raised re_error s
    | Some new_filename =>
        match os_rename file new_filename w with
        | Ok w' =>
            Done ((counter + 1)%Z, recorded new_filename w')
                 {| st_world := w'; st_stdout := st_stdout s |}
        | Err e =>
            if is_OSError e then Done (counter, recorded file w) s
            else Raised e s
        end
    end in
  if os_path_isdir file w then
    let recorded name w' := directories ++ [path_join (os_getcwd w') name] in
    if rd && contains search file then attempt recorded
    else Done (counter, recorded file w) s
  else if os_path_isfile file w then
    if negb (contains search file) then Done (counter, directories) s
    else attempt (fun _ _ => directories)
  else Done (counter, directories) s.
Proof.
  unfold scan_entry, new_name, rename_file, bind, ask, raise, ret.
  cbv zeta.
  destruct (os_path_isdir file (st_world s)).
  - destruct (rd && contains search file); [|reflexivity].
    destruct (get_new_filename file search replace); [|reflexivity].
    destruct (os_rename file s0 (st_world s)); [reflexivity|].
    destruct (is_OSError e); reflexivity.
  - destruct (os_path_isfile file (st_world s)); [|reflexivity].
    destruct (negb (contains search file)); [reflexivity|].
    destruct (get_new_filename file search replace); [|reflexivity].
    destruct (os_rename file s0 (st_world s)); [reflexivity|].
    destruct (is_OSError e); reflexivity.
Qed.

(** One turn of the loop never lowers the counter. *)
Lemma scan_entry_monotone (search replace : str) (rd : bool) (file : str)
      (counter : Z) (directories : list str) (s : state world) :
  outcome_sat (fun a _ => (counter <= fst a)%Z) (fun _ => True) True
              (scan_entry search replace rd file (counter, directories) s).
Proof.
  rewrite scan_entry_cases. cbv zeta.
  repeat match goal with
         | |- context [if ?b then _ else _] => destruct b
         | |- context [match ?x with _ => _ end] => destruct x
         end; simpl; auto; lia.
Qed.

Lemma scan_monotone (search replace : str) (rd : bool) (counter : Z)
      (s : state world) :
  outcome_sat (fun a _ => (counter <= fst a)%Z) (fun _ => True) True
              (scan search replace rd counter s).
Proof.
  unfold scan. destruct (os_listdir (st_world s)); [|exact I].
  apply outcome_sat_for_each; [|simpl; lia].
  intros x [c ds] s' _ Hc.
  pose proof (scan_entry_monotone search replace rd x c ds s') as H.
  destruct (scan_entry search replace rd x (c, ds) s'); simpl in *; auto; lia.
Qed.

Lemma rename_files_monotone (search replace : str) (sd rd : bool) :
  forall fuel directory counter s,
    outcome_sat (fun c _ => (counter <= c)%Z) (fun _ => True) True
                (rename_files fuel directory search replace sd rd counter s).
Proof.
  induction fuel as [|fuel IH]; intros directory counter s; [exact I|].
  cbn [rename_files].
  destruct (os_chdir directory (st_world s)) as [w|e].
  - apply outcome_sat_bind with (Q' := fun a _ => (counter <= fst a)%Z).
    + apply scan_monotone.
    + intros [c ds] s' Hc. simpl in Hc.
      destruct (sd && negb (length ds =? 0)); [|simpl; exact Hc].
      apply outcome_sat_for_each; [|exact Hc].
      intros d c' s'' _ Hc'. specialize (IH d c' s'').
      destruct (rename_files fuel d search replace sd rd c' s'');
        simpl in *; auto; lia.
  - destruct (is_OSError e); simpl; [lia|exact I].
Qed.

(** A directory that cannot be entered: the failure is printed and the
    counter comes back as it was. *)
Lemma rename_files_no_access (fuel : nat) (directory search replace : str)
      (sd rd : bool) (counter : Z) (s : state world) (e : exc) :
  os_chdir directory (st_world s) = Err e -> is_OSError e = true ->
  rename_files (S fuel) directory search replace sd rd counter s =
  Done counter
       {| st_world := st_world s;
          st_stdout := st_stdout s ++
            [[10%N] ++ CRED ++ access_denied directory ++ CEND ++ [10%N]] |}.
Proof.
  intros H1 H2. cbn [rename_files]. now rewrite H1, H2.
Qed.

(** Whether the subdirectories are entered hangs on [sub_directories]
    alone. *)
Lemma rename_files_recursion (fuel : nat) (directory search replace : str)
      (sd rd : bool) (counter : Z) (s : state world) (w : world) :
  os_chdir directory (st_world s) = Ok w ->
  rename_files (S fuel) directory search replace sd rd counter s =
  match scan search replace rd counter
             {| st_world := w; st_stdout := st_stdout s |} with
  | Done (counter', directories) s' =>
      if sd then
        for_each directories
                 (fun dir_ c => rename_files fuel dir_ search replace sd rd c)
                 counter' s'
      else Done counter' s'
  | Raised e s' => Raised e s'
  | OutOfFuel => OutOfFuel
  end.
Proof.
  intros H. cbn [rename_files]. rewrite H. unfold bind.
  destruct (scan search replace rd counter _) as [[c ds] s'| |]; try reflexivity.
  destruct sd; [|reflexivity]. destruct ds; reflexivity.
Qed.

(** A loop over two lists run one after the other. *)
Lemma for_each_app {A B} (body : A -> B -> M B) (xs ys : list A) (acc : B)
      (s : state world) :
  for_each (xs ++ ys) body acc s
  = bind (for_each xs body acc) (for_each ys body) s.
Proof.
  revert acc s. induction xs as [|x xs IH]; intros acc s; [reflexivity|].
  cbn [app for_each]. unfold bind.
  destruct (body x acc s) as [a s'| |]; [|reflexivity|reflexivity].
  rewrite IH. reflexivity.
Qed.

(** The loop over the listing only adds to [directories], and needs no
    fuel. *)
Lemma for_each_scan_grows (search replace : str) (rd : bool) :
  forall files counter directories (s : state world),
    outcome_sat (fun a _ => exists extra, snd a = directories ++ extra)
                (fun _ => True) False
                (for_each files (scan_entry search replace rd)
                          (counter, directories) s).
Proof.
  induction files as [|file files IH]; intros counter directories s.
  - cbn [for_each ret outcome_sat snd]. exists []. now rewrite app_nil_r.
  - cbn [for_each]. unfold bind.
    assert (H : outcome_sat
                  (fun a _ => exists extra, snd a = directories ++ extra)
                  (fun _ => True) False
                  (scan_entry search replace rd file (counter, directories) s)).
    { rewrite scan_entry_cases. cbv zeta.
      repeat match goal with
             | |- context [if ?b then _ else _] => destruct b
             | |- context [match ?x with _ => _ end] => destruct x
             end; cbn [outcome_sat snd]; auto;
        first [now eexists | exists []; now rewrite app_nil_r]. }
    destruct (scan_entry search replace rd file (counter, directories) s)
      as [[c1 ds1] s1| |]; [|exact I|exact H].
    cbn [outcome_sat snd] in H. destruct H as [e1 ->].
    specialize (IH c1 (directories ++ e1) s1).
    destruct (for_each files (scan_entry search replace rd)
                       (c1, directories ++ e1) s1) as [[c2 ds2] s2| |];
      [|exact I|exact IH].
    cbn [outcome_sat snd] in *. destruct IH as [e2 ->].
    exists (e1 ++ e2). now rewrite app_assoc.
Qed.

End ScriptFacts.

(* ================================================================= *)
(** ** The simulated file system: names, depth, termination *)

Module SimFSFacts.

Import SimFS.

Lemma path_eqb_eq (p q : path) : path_eqb p q = true <-> p = q.
Proof.
  revert q; induction p as [|a p IH]; intros [|b q]; simpl; split;
    try congruence; try reflexivity.
  - rewrite andb_true_iff, str_eqb_eq, IH. intros [-> ->]; reflexivity.
  - intros H; injection H as -> ->.
    now rewrite str_eqb_refl, (proj2 (IH q)).
Qed.

Lemma lookup_In (es : list (path * kind)) (p : path) (k : kind) :
  lookup es p = Some k -> In (p, k) es.
Proof.
  induction es as [|[q k'] es IH]; simpl; [discriminate|].
  destruct (path_eqb q p) eqn:E.
  - apply path_eqb_eq in E. intros H; injection H as ->. subst. now left.
  - intros H. right. now apply IH.
Qed.

Lemma depth_In (es : list (path * kind)) (e : path * kind) :
  In e es -> length (fst e) <= depth es.
Proof.
  induction es as [|x es IH]; [simpl; tauto|].
  cbn [In depth].
  intros [->|H]; [lia|]. specialize (IH H). lia.
Qed.

Lemma kind_at_depth (es : list (path * kind)) (q : path) (k : kind) :
  kind_at es q = Some k -> length q <= depth es.
Proof.
  destruct q as [|c q]; [simpl; lia|]. intros H.
  apply lookup_In in H. apply depth_In in H. exact H.
Qed.

Lemma kind_at_named (es : list (path * kind)) (q : path) (k : kind) :
  named_entries es -> kind_at es q = Some k -> named_path q.
Proof.
  intros W. destruct q as [|c q]; [constructor|]. intros H.
  apply lookup_In in H. unfold named_entries in W.
  rewrite Forall_forall in W. now apply W in H.
Qed.

Lemma chdir_Ok (p : str) (f f' : fs) :
  chdir p f = Ok f' ->
  entries f' = entries f /\ exists k, kind_at (entries f) (cwd f') = Some k.
Proof.
  unfold chdir. destruct (locate f p) as [q|e]; [|discriminate].
  destruct (kind_at (entries f) q) as [[|r w [|]|]|] eqn:E; try discriminate.
  intros H; injection H as <-. simpl. eauto.
Qed.

Lemma component_true (c : str) :
  component c = true ->
  str_eqb c [] = false /\ str_eqb c dot = false /\ str_eqb c dotdot = false
  /\ mem sep c = false /\ mem 0%N c = false.
Proof.
  unfold component. rewrite !andb_true_iff, !negb_true_iff. tauto.
Qed.

(** Along names that are plain components, a walk only goes down. *)
Lemma walk_named (es : list (path * kind)) (comps : list str) :
  named_path comps ->
  forall cur q, walk es cur comps = Ok q -> q = cur ++ comps.
Proof.
  induction 1 as [|c comps Hc _ IH]; intros cur q; simpl.
  - intros H; injection H as <-. now rewrite app_nil_r.
  - apply component_true in Hc. destruct Hc as (H1 & H2 & H3 & _).
    rewrite H1, H2, H3. cbn [orb].
    destruct (kind_at es cur) as [[|r w [|]|]|]; try discriminate.
    destruct (kind_at es (cur ++ [c])); [|discriminate].
    intros H. apply IH in H. now rewrite <- app_assoc in H.
Qed.

Lemma components_app (c x : str) :
  mem sep c = false -> components (c ++ sep :: x) = c :: components x.
Proof.
  induction c as [|a c IH]; intros H.
  - cbn [app components]. now rewrite N.eqb_refl.
  - unfold mem in H. cbn [existsb] in H. apply orb_false_iff in H.
    destruct H as [H1 H2]. cbn [app components].
    rewrite N.eqb_sym, H1. now rewrite (IH H2).
Qed.

Lemma components_plain (c : str) : mem sep c = false -> components c = [c].
Proof.
  induction c as [|a c IH]; intros H; [reflexivity|].
  unfold mem in H. cbn [existsb] in H. apply orb_false_iff in H.
  destruct H as [H1 H2]. cbn [components].
  rewrite N.eqb_sym, H1. now rewrite (IH H2).
Qed.

Lemma components_absolute (p : path) (name : str) :
  named_path p -> component name = true ->
  components (concat (map (cons sep) p) ++ sep :: name) = [] :: p ++ [name].
Proof.
  intros Hp Hn. apply component_true in Hn. destruct Hn as (_ & _ & _ & Hn & _).
  induction Hp as [|c p Hc _ IH].
  - cbn [map concat app components]. rewrite N.eqb_refl.
    now rewrite components_plain.
  - cbn [map concat app components]. rewrite N.eqb_refl.
    rewrite <- app_assoc.
    apply component_true in Hc. destruct Hc as (_ & _ & _ & Hc & _).
    destruct p as [|d p].
    + cbn [map concat app]. rewrite components_app by exact Hc.
      now rewrite components_plain.
    + cbn [map concat app components] in IH. rewrite N.eqb_refl in IH.
      injection IH as IH.
      cbn [map concat app]. rewrite components_app by exact Hc.
      now rewrite IH.
Qed.

Lemma endswith_sep_app (x c : str) :
  c <> [] -> mem sep c = false -> endswith_sep (x ++ c) = false.
Proof.
  intros Hc Hm. unfold endswith_sep. rewrite rev_app_distr.
  destruct (rev c) as [|z rc] eqn:E.
  - apply (f_equal (@rev _)) in E. rewrite rev_involutive in E. now subst.
  - simpl. apply (@mem_false_neq sep z c) in Hm.
    + now rewrite N.eqb_sym.
    + apply in_rev. rewrite E. now left.
Qed.

(** The path [rename_files] records for the entry [name] of the
    directory [p]. *)
Lemma path_join_getcwd (p : path) (name : str) :
  named_path p -> component name = true ->
  path_join (getcwd_path p) name = concat (map (cons sep) p) ++ sep :: name.
Proof.
  intros Hp Hn. apply component_true in Hn.
  destruct Hn as (Hne & _ & _ & Hn & _).
  assert (S0 : startswith [sep] name = false).
  { destruct name as [|a name]; [reflexivity|].
    unfold mem in Hn. cbn [existsb] in Hn. apply orb_false_iff in Hn.
    cbn [startswith]. now rewrite (proj1 Hn). }
  unfold path_join, getcwd_path. rewrite S0.
  destruct p as [|c p]; [reflexivity|].
  assert (E : endswith_sep (concat (map (cons sep) (c :: p))) = false).
  { assert (L : exists x d, concat (map (cons sep) (c :: p)) = x ++ d
                            /\ component d = true).
    { clear S0. revert c Hp. induction p as [|d p IH]; intros c Hp.
      - exists [sep], c. split; [simpl; now rewrite app_nil_r|].
        now inversion Hp.
      - inversion Hp as [|? ? H1 H2]; subst.
        destruct (IH d H2) as (x & d' & Hx & Hd').
        exists (sep :: c ++ x), d'. split; [|exact Hd'].
        cbn [map concat] in *. rewrite Hx. simpl. now rewrite <- app_assoc. }
    destruct L as (x & d & -> & Hd). apply component_true in Hd.
    destruct Hd as (Hd1 & _ & _ & Hd2 & _).
    apply endswith_sep_app; [|exact Hd2].
    intros ->. discriminate Hd1. }
  destruct (concat (map (cons sep) (c :: p))) eqn:C; [discriminate C|].
  rewrite E. reflexivity.
Qed.

Lemma chdir_recorded (p : path) (name : str) (f f' : fs) :
  named_path p -> component name = true ->
  chdir (path_join (getcwd_path p) name) f = Ok f' -> cwd f' = p ++ [name].
Proof.
  intros Hp Hn. rewrite path_join_getcwd by assumption.
  unfold chdir. destruct (locate f _) as [q|e] eqn:L; [|discriminate].
  intros H.
  assert (Q : q = p ++ [name]).
  { unfold locate in L. destruct (mem 0%N _); [discriminate|].
    rewrite components_absolute in L by assumption.
    assert (S0 : exists x, concat (map (cons sep) p) ++ sep :: name = sep :: x).
    { destruct p; simpl; eauto. }
    destruct S0 as (x & S0). rewrite S0 in L. rewrite N.eqb_refl in L.
    simpl in L. apply walk_named in L; [exact L|].
    apply Forall_app. split; [exact Hp|]. now constructor. }
  subst q. destruct (kind_at (entries f) (p ++ [name])) as [[|r w [|]|]|];
    try discriminate.
  now injection H as <-.
Qed.

Lemma has_prefix_split (old q : path) :
  has_prefix old q = true -> q = old ++ skipn (length old) q.
Proof.
  unfold has_prefix. rewrite path_eqb_eq. intros H.
  rewrite H at 1. now rewrite firstn_skipn.
Qed.

Lemma depth_move (old new : path) (es : list (path * kind)) :
  length old = length new -> depth (move old new es) = depth es.
Proof.
  intros L. induction es as [|[q k] es IH]; [reflexivity|].
  cbn [move map depth fst snd]. fold (move old new es).
  rewrite IH. destruct (has_prefix old q) eqn:E; [|reflexivity].
  cbn [fst]. rewrite length_app, length_skipn.
  apply has_prefix_split in E. apply (f_equal (@length _)) in E.
  rewrite length_app, length_skipn in E. lia.
Qed.

Lemma depth_remove (p : path) (es : list (path * kind)) :
  depth (remove p es) <= depth es.
Proof.
  induction es as [|[q k] es IH]; [reflexivity|].
  cbn [remove filter depth fst]. fold (remove p es).
  destruct (negb (path_eqb q p)); cbn [depth fst]; lia.
Qed.

Lemma named_move (old new : path) (es : list (path * kind)) :
  new <> [] -> named_path new -> named_entries es ->
  named_entries (move old new es).
Proof.
  intros Hne Hn. unfold named_entries, move. rewrite !Forall_forall.
  intros W e He. apply in_map_iff in He. destruct He as ([q k] & <- & Hq).
  specialize (W _ Hq). simpl in *. destruct (has_prefix old q) eqn:E; [|exact W].
  simpl. split.
  - destruct new; [congruence|discriminate].
  - apply Forall_app. split; [exact Hn|].
    destruct W as [_ W]. rewrite <- (firstn_skipn (length old) q) in W.
    apply Forall_app in W. tauto.
Qed.

Lemma named_remove (p : path) (es : list (path * kind)) :
  named_entries es -> named_entries (remove p es).
Proof.
  unfold named_entries, remove. rewrite !Forall_forall.
  intros W e He. apply filter_In in He. now apply W.
Qed.

(** A rename that succeeds stays in the working directory, gives a plain
    name, and makes no path longer. *)
Lemma rename_Ok (src dst : str) (f f' : fs) :
  rename src dst f = Ok f' ->
  cwd f' = cwd f /\ component dst = true
  /\ (well_named f -> well_named f')
  /\ depth (entries f') <= depth (entries f).
Proof.
  unfold rename.
  destruct (mem 0%N src || mem 0%N dst); [discriminate|].
  destruct (str_eqb src [] || str_eqb dst []); [discriminate|].
  destruct (component src) eqn:Cs; [|discriminate].
  destruct (component dst) eqn:Cd; [|discriminate].
  cbn [negb orb].
  destruct (kind_at (entries f) (cwd f)) as [[|r w [|]|]|]; try discriminate.
  destruct (lookup (entries f) (cwd f ++ [src])) as [k|]; [|discriminate].
  destruct (str_eqb src dst).
  { intros H; injection H as <-. refine (conj _ (conj _ (conj _ _))); auto. }
  destruct (negb w); [discriminate|].
  assert (Hlen : length (cwd f ++ [src]) = length (cwd f ++ [dst]))
    by (rewrite !length_app; reflexivity).
  assert (Hnew : well_named f -> named_path (cwd f ++ [dst])).
  { intros [W _]. apply Forall_app. split; [exact W|]. now constructor. }
  assert (Hne : cwd f ++ [dst] <> []) by (destruct (cwd f); discriminate).
  destruct (lookup (entries f) (cwd f ++ [dst])) as [k'|].
  - destruct (is_dir k && negb (is_dir k')); [discriminate|].
    destruct (negb (is_dir k) && is_dir k'); [discriminate|].
    destruct (is_dir k' && _); [discriminate|].
    intros H; injection H as <-. cbn [cwd entries].
    refine (conj _ (conj _ (conj _ _))); auto.
    + intros W. split; [apply W|]. cbn [entries].
      apply named_move; auto. apply named_remove. apply W.
    + rewrite depth_move by exact Hlen. apply depth_remove.
  - intros H; injection H as <-. cbn [cwd entries].
    refine (conj _ (conj _ (conj _ _))); auto.
    + intros W. split; [apply W|]. cbn [entries].
      apply named_move; auto. apply W.
    + now rewrite depth_move by exact Hlen.
Qed.

Lemma children_named (es : list (path * kind)) (d : path) :
  named_entries es -> named_path (children es d).
Proof.
  unfold named_entries, named_path. induction 1 as [|[q k] es [_ Hq] _ IH]; simpl.
  - constructor.
  - destruct (rev q) as [|name rparent] eqn:E; [exact IH|].
    destruct (path_eqb (rev rparent) d); [|exact IH].
    constructor; [|exact IH].
    simpl in Hq. rewrite Forall_forall in Hq. apply Hq.
    apply in_rev. rewrite E. now left.
Qed.

Section Termination.

Variables (search replace : str) (sd rd : bool).

(** One turn of the loop, in the directory [p] of a file system of depth
    at most [D]: it stays there, and what it records is a plain name under
    [p]. *)
Lemma scan_entry_kept (D : nat) (p : path) (file : str) (counter : Z)
      (directories : list str) (s : state fs) :
  component file = true ->
  scanning D p (counter, directories) s ->
  outcome_sat (scanning D p) (bounded D) False
              (scan_entry search replace rd file (counter, directories) s).
Proof.
  intros Hf ((Hcwd & Hw & Hd) & Hds). cbn [snd] in Hds.
  assert (B : bounded D s) by (split; assumption).
  assert (R : forall name, component name = true ->
                Forall (recorded_under p)
                       (directories ++ [path_join (getcwd (st_world s)) name])).
  { intros name Hn. apply Forall_app. split; [exact Hds|].
    constructor; [|constructor]. exists name. split; [exact Hn|].
    unfold getcwd. now rewrite Hcwd. }
  assert (A : forall ds' : str -> fs -> list str,
             (forall name f', component name = true ->
                cwd f' = p -> Forall (recorded_under p) (ds' name f')) ->
             outcome_sat (scanning D p) (bounded D) False
               match get_new_filename file search replace with
               | None => Raised re_error s
               | Some new_filename =>
                   match rename file new_filename (st_world s) with
                   | Ok w' =>
                       Done ((counter + 1)%Z, ds' new_filename w')
                            {| st_world := w'; st_stdout := st_stdout s |}
                   | Err e =>
                       if is_OSError e
                       then Done (counter, ds' file (st_world s)) s
                       else Raised e s
                   end
               end).
  { intros ds' Hds'.
    destruct (get_new_filename file search replace) as [new|]; [|exact B].
    destruct (rename file new (st_world s)) as [w'|e] eqn:E.
    - apply rename_Ok in E. destruct E as (E1 & E2 & E3 & E4).
      cbn [outcome_sat]. unfold scanning. cbn [st_world snd].
      refine (conj (conj _ (conj _ _)) _); auto; try lia; try congruence.
      apply Hds'; congruence.
    - destruct (is_OSError e); [|exact B].
      cbn [outcome_sat]. unfold scanning. cbn [snd].
      refine (conj (conj _ (conj _ _)) _); auto. }
  assert (K : forall ds, Forall (recorded_under p) ds ->
                         scanning D p (counter, ds) s).
  { intros ds Hr. unfold scanning. cbn [snd]. auto. }
  rewrite scan_entry_cases. cbv zeta.
  cbn [os_path_isdir os_path_isfile os_rename os_getcwd os].
  destruct (isdir file (st_world s)).
  - destruct (rd && contains search file).
    + apply (A (fun name f' => directories ++ [path_join (getcwd f') name])).
      intros name f' Hn Hf'. apply Forall_app. split; [exact Hds|].
      constructor; [|constructor]. exists name. split; [exact Hn|].
      unfold getcwd. now rewrite Hf'.
    + apply K. now apply R.
  - destruct (isfile file (st_world s)).
    + destruct (negb (contains search file)).
      * now apply K.
      * apply (A (fun _ _ => directories)). auto.
    + now apply K.
Qed.

Lemma scan_kept (D : nat) (counter : Z) (s : state fs) :
  bounded D s ->
  outcome_sat (scanning D (cwd (st_world s))) (bounded D) False
              (scan search replace rd counter s).
Proof.
  intros B. unfold scan. cbn [os_listdir os].
  destruct (listdir (st_world s)) as [files|e] eqn:L; [|exact B].
  assert (N : named_path files).
  { unfold listdir in L.
    destruct (kind_at _ _) as [[|[|] w x|]|]; try discriminate.
    injection L as <-. apply children_named. apply B. }
  apply outcome_sat_for_each.
  - intros x [c ds] s' Hx Hs'. apply scan_entry_kept; [|exact Hs'].
    unfold named_path in N. rewrite Forall_forall in N. now apply N.
  - destruct B as [B1 B2]. unfold scanning. cbn [snd]. auto.
Qed.

(** With fuel for the levels below the directory entered, the traversal
    ends; it keeps the names plain and makes no path longer. *)
Lemma rename_files_ends (D : nat) :
  forall fuel directory counter (s : state fs),
    bounded D s ->
    1 <= fuel ->
    (forall f', chdir directory (st_world s) = Ok f' ->
                D + 2 <= fuel + length (cwd f')) ->
    outcome_sat (fun _ => bounded D) (bounded D) False
                (rename_files fuel directory search replace sd rd counter s).
Proof.
  induction fuel as [|fuel IH]; intros directory counter s B Hfuel Hdeep; [lia|].
  cbn [rename_files]. cbn [os_chdir os].
  destruct (chdir directory (st_world s)) as [w|e] eqn:C.
  - specialize (Hdeep _ eq_refl).
    destruct (chdir_Ok _ _ C) as (Ce & k & Ck).
    pose proof (kind_at_depth _ _ Ck) as Cd.
    assert (B' : bounded D {| st_world := w; st_stdout := st_stdout s |}).
    { destruct B as [[B1 B2] B3]. split; [split|]; cbn [st_world].
      - eapply kind_at_named; eauto.
      - now rewrite Ce.
      - now rewrite Ce. }
    destruct B as [_ B3].
    apply outcome_sat_bind with (Q' := scanning D (cwd w)).
    + apply (scan_kept counter B').
    + intros [c ds] s' ((S1 & S2 & S3) & S4). cbn [snd] in S4.
      destruct (sd && negb (length ds =? 0)).
      * apply outcome_sat_for_each with (Q := fun _ => bounded D).
        -- intros d c' s'' Hd Hs''. apply IH; [exact Hs''|lia|].
           intros f' Hf'. rewrite Forall_forall in S4.
           destruct (S4 _ Hd) as (name & Hn & ->).
           apply chdir_recorded in Hf'; [|apply B'|exact Hn].
           rewrite Hf', length_app. simpl. lia.
        -- split; assumption.
      * simpl. split; assumption.
  - destruct (is_OSError e); [|exact B].
    simpl. exact B.
Qed.

End Termination.

(** [rename_files] ends on every file system whose names are plain, with
    fuel for two levels more than its depth. *)
Lemma rename_files_total (directory search replace : str) (sd rd : bool)
      (counter : Z) (s : state fs) (fuel : nat) :
  well_named (st_world s) ->
  depth (entries (st_world s)) + 2 <= fuel ->
  rename_files fuel directory search replace sd rd counter s <> OutOfFuel.
Proof.
  intros W Hfuel.
  assert (B : bounded (depth (entries (st_world s))) s) by (split; [exact W|lia]).
  pose proof (@rename_files_ends search replace sd rd _ fuel directory counter s B)
    as H.
  intros E. rewrite E in H. apply H; [lia|]. intros. lia.
Qed.

End SimFSFacts.

(* ================================================================= *)
(** ** The properties of the specification: [get_new_filename] *)

(** C1. For every name [n], every non-empty search token [s] other than the
    single space, and every replacement [r], [get_new_filename n s r] is
    [n] with every non-overlapping occurrence of [s], read from the left,
    replaced by [r]: [n] is made of pieces joined by [s], no occurrence of
    [s] starting inside a piece, and the new name is the same pieces joined
    by [r], whichever such pieces are taken.  The pattern built from [s] is
    the pattern of its literal characters: after escaping, no character of
    [s] is read as a metacharacter. *)
Theorem C1_literal_replacement (n s r : str) :
  s <> [] -> s <> py " " ->
  Re.compile (pattern_of s) = Some (Re.literal s)
  /\ get_new_filename n s r = Some (Spec.replace_all s r n)
  /\ (exists pieces,
         Spec.leftmost_pieces s pieces = true /\ n = join s pieces
         /\ get_new_filename n s r = Some (join r pieces))
  /\ (forall pieces,
         Spec.leftmost_pieces s pieces = true -> n = join s pieces ->
         get_new_filename n s r = Some (join r pieces)).
Proof.
  intros Hs Hsp. split; [|split; [|split]].
  - rewrite pattern_of_other by exact Hsp. apply compile_escape.
  - now apply get_new_filename_literal.
  - exists (Re.split_regex (Re.literal s) n). split; [|split].
    + now apply split_literal_pieces.
    + rewrite (join_split_regex (Re.literal s) s (Spec.replace_all s s)).
      * symmetry. now apply replace_all_same.
      * now apply search_literal_replace.
    + unfold get_new_filename, Re.split.
      rewrite pattern_of_other by exact Hsp. now rewrite compile_escape.
  - intros pieces P ->. rewrite get_new_filename_literal by assumption.
    now rewrite replace_all_join.
Qed.

Lemma C1_literal_replacement_witness :
  py "." <> [] /\ py "." <> py " "
  /\ Re.compile (pattern_of (py ".")) = Some (Re.literal (py "."))
  /\ get_new_filename (py "a.b*c.d") (py ".") (py "-") = Some (py "a-b*c-d").
Proof.
  split; [discriminate|]. split; [discriminate|].
  pose proof (@C1_literal_replacement (py "a.b*c.d") (py ".") (py "-")
                ltac:(discriminate) ltac:(discriminate)) as H.
  split; [exact (proj1 H)|exact (proj1 (proj2 H))].
Defined.

(** C2, as the specification states it, fails: the replacement ["b"] does
    not hold the token ["ab"], yet replacing in ["aab"] gives ["ab"], and
    replacing again gives ["b"]. *)
Lemma C2_counterexample :
  py "ab" <> [] /\ py "ab" <> py " " /\ contains (py "ab") (py "b") = false
  /\ get_new_filename (py "aab") (py "ab") (py "b") = Some (py "ab")
  /\ get_new_filename (py "ab") (py "ab") (py "b") = Some (py "b")
  /\ py "b" <> py "ab".
Proof.
  repeat split; try reflexivity; discriminate.
Qed.

(** C2, amended.  For every name [n], every non-empty search token [s]
    other than the single space and every replacement [r], with [t] the
    name [get_new_filename n s r]: a second application returns [t] exactly
    when [r] is [s] or [s] does not occur in [t].  That [r] does not hold
    [s] is enough when [s] is a single character. *)
Theorem C2_idempotence (n s r t : str) :
  s <> [] -> s <> py " " ->
  get_new_filename n s r = Some t ->
  (get_new_filename t s r = Some t <-> r = s \/ contains s t = false)
  /\ (length s = 1 -> contains s r = false ->
      get_new_filename t s r = Some t).
Proof.
  intros Hs Hsp Ht.
  rewrite get_new_filename_literal in Ht by assumption. injection Ht as Ht.
  rewrite get_new_filename_literal by assumption.
  split; [split|].
  - intros H. injection H as H.
    destruct (contains s t) eqn:C; [left|now right].
    now apply (@replace_all_fixed s r t).
  - intros [->|C].
    + now rewrite replace_all_same.
    + now rewrite replace_all_absent.
  - intros L C. destruct s as [|c [|d s]]; try discriminate L.
    rewrite contains_single in C.
    rewrite replace_all_absent; [reflexivity|].
    rewrite contains_single, <- Ht. now apply replace_all_single_clean.
Qed.

Lemma C2_idempotence_witness :
  py " b" <> [] /\ py " b" <> py " "
  /\ get_new_filename (py "a b b") (py " b") (py "_") = Some (py "a__")
  /\ get_new_filename (py "a__") (py " b") (py "_") = Some (py "a__").
Proof.
  split; [discriminate|]. split; [discriminate|]. split; [reflexivity|].
  apply (proj1 (@C2_idempotence (py "a b b") (py " b") (py "_") (py "a__")
                  ltac:(discriminate) ltac:(discriminate) eq_refl)).
  right. reflexivity.
Defined.

(** C3, as the specification states it, fails for the single space: it
    does not occur in a name with a tab between ["a"] and ["b"], and the
    name is changed. *)
Lemma C3_counterexample :
  py " " <> []
  /\ contains (py " ") [97; 9; 98]%N = false
  /\ get_new_filename [97; 9; 98]%N (py " ") (py "_") = Some (py "a_b")
  /\ py "a_b" <> [97; 9; 98]%N.
Proof.
  repeat split; try reflexivity; discriminate.
Qed.

(** C3, amended.  For every name [n], every non-empty search token [s] and
    every replacement [r]: if [s] is not the single space and does not
    occur in [n], [get_new_filename n s r] is [n]; if [s] is the single
    space, it is [n] when [n] holds no whitespace character. *)
Theorem C3_identity_on_non_matching (n s r : str) :
  s <> [] ->
  (s <> py " " -> contains s n = false -> get_new_filename n s r = Some n)
  /\ (s = py " " -> forallb (fun c => negb (Re.is_space c)) n = true ->
      get_new_filename n s r = Some n).
Proof.
  intros Hs. split.
  - intros Hsp C. rewrite get_new_filename_literal by assumption.
    now rewrite replace_all_absent.
  - intros -> C. rewrite get_new_filename_space.
    now rewrite collapse_no_space.
Qed.

Lemma C3_identity_on_non_matching_witness :
  py "-" <> [] /\ py "-" <> py " " /\ contains (py "-") (py "a.txt") = false
  /\ get_new_filename (py "a.txt") (py "-") (py "_") = Some (py "a.txt").
Proof.
  split; [discriminate|]. split; [discriminate|]. split; [reflexivity|].
  exact (proj1 (@C3_identity_on_non_matching (py "a.txt") (py "-") (py "_")
                  ltac:(discriminate)) ltac:(discriminate) eq_refl).
Defined.

(** C4. For every name [n] and replacement [r],
    [get_new_filename n " " r] is [n] with every maximal run of whitespace
    characters replaced by one copy of [r].  The whitespace characters are
    those of the class [\s]; the space and the tab are among them, and on a
    name whose whitespace characters are spaces and tabs the runs are the
    runs of spaces and tabs. *)
Theorem C4_whitespace_runs (n r : str) :
  get_new_filename n (py " ") r = Some (Spec.collapse_whitespace r n)
  /\ (forall c, Spec.space_or_tab c = true -> Re.is_space c = true)
  /\ (forallb (fun c => Bool.eqb (Re.is_space c) (Spec.space_or_tab c)) n
      = true ->
      get_new_filename n (py " ") r = Some (Spec.collapse_spaces_tabs r n)).
Proof.
  split; [apply get_new_filename_space|]. split.
  - intros c H. unfold Spec.space_or_tab in H. apply orb_true_iff in H.
    destruct H as [H|H]; apply N.eqb_eq in H; now subst.
  - intros H. rewrite get_new_filename_space. f_equal.
    now apply collapse_from_ext.
Qed.

Example C4_runs_of_spaces_and_tabs :
  get_new_filename [97; 32; 9; 32; 98; 9; 99]%N (py " ") (py "_")
  = Some (py "a_b_c").
Proof. reflexivity. Qed.

(* ================================================================= *)
(** ** The properties of the specification: [rename_files] *)

Section Claims.

Import SimFS.

Example rename_files_flat :
  rename_files 3 (py "/tmp/x") (py " ") (py "_") false false 0 (start tmp_x)
  = Done 2%Z
      (at_dir [ ([py "tmp"], rwx);
                ([py "tmp"; py "x"], rwx);
                ([py "tmp"; py "x"; py "a_b.txt"], File);
                ([py "tmp"; py "x"; py "ab.txt"], File);
                ([py "tmp"; py "x"; py "a_b_c.txt"], File) ]
              [py "tmp"; py "x"]).
Proof. vm_compute. reflexivity. Qed.

Example rename_files_missing_root :
  rename_files 3 (py "/nowhere") (py " ") (py "_") true false 0 (start tmp_x)
  = Done 0%Z
      {| st_world := {| entries := tmp_x; cwd := [] |};
         st_stdout :=
           [[10%N] ++ CRED ++ py "Access to directory " ++ [34%N]
            ++ py "/nowhere" ++ [34%N] ++ py " denied" ++ CEND ++ [10%N]] |}.
Proof. vm_compute. reflexivity. Qed.

(** A directory whose entries may not be changed: neither the file nor
    the directory in it is renamed, and the directory is entered under the
    name it kept. *)
Example rename_files_failed_directory :
  rename_files 4 (py "/fixed") (py " ") (py "_") true true 0 (start closed)
  = Done 1%Z
      (at_dir [ ([py "locked"], Dir false true true);
                ([py "locked"; py "a b"], File);
                ([py "fixed"], Dir true false true);
                ([py "fixed"; py "a b"], File);
                ([py "fixed"; py "c d"], rwx);
                ([py "fixed"; py "c d"; py "e_f"], File) ]
              [py "fixed"; py "c d"]).
Proof. vm_compute. reflexivity. Qed.

(** A directory that is renamed is entered under its new name, and the
    file inside it is renamed too. *)
Example rename_files_renamed_directory :
  rename_files 3 (py "/") (py " ") (py "_") true true 0 (start nested)
  = Done 2%Z
      (at_dir [ ([py "foo_bar"], rwx);
                ([py "foo_bar"; py "ba_z.txt"], File);
                ([py "foo_bar"; py "baz.txt"], File) ]
              [py "foo_bar"]).
Proof. vm_compute. reflexivity. Qed.

(** C5. Every entry that is a directory is recorded for the recursion,
    whatever [rename_directories] is and whether or not its name holds the
    search token.  The turn of the loop adds exactly one path to
    [directories]: the working directory joined with the new name when the
    entry was renamed, and with the name it has in every other case; the
    one other way the turn can end is an exception of [os.rename] that is
    no [OSError].  Without [rename_directories] the entry is not renamed
    and nothing else changes.  The recorded paths are entered if and only
    if [sub_directories] is set: with it, [rename_files] calls itself on
    the path recorded for every directory of the listing, after the calls
    for the paths recorded before it.  In every directory [rename_files]
    enters, a file of the listing whose name holds the search token is
    renamed, and counted when [os.rename] succeeds, whatever the two flags
    are.  So on [/foo bar/ba z.txt], without [rename_directories] and with
    [sub_directories], [foo bar] keeps its name and the file inside it is
    renamed. *)
Theorem C5_subdirectories_always_recorded
    (world : Type) (os : OS world) (search replace : str) (rd : bool)
    (file : str) (counter : Z) (directories : list str) (s : state world) :
  os_path_isdir file (st_world s) = true ->
  (exists new_filename,
      get_new_filename file search replace = Some new_filename
      /\ scan_entry search replace rd file (counter, directories) s
         = if rd && contains search file then
             match os_rename file new_filename (st_world s) with
             | Ok w' =>
                 Done ((counter + 1)%Z,
                       directories ++ [path_join (os_getcwd w') new_filename])
                      {| st_world := w'; st_stdout := st_stdout s |}
             | Err e =>
                 if is_OSError e then
                   Done (counter,
                         directories
                         ++ [path_join (os_getcwd (st_world s)) file]) s
                 else Raised e s
             end
           else
             Done (counter,
                   directories ++ [path_join (os_getcwd (st_world s)) file])
                  s)
  /\ scan_entry search replace false file (counter, directories) s
     = Done (counter,
             directories ++ [path_join (os_getcwd (st_world s)) file]) s
  /\ (forall fuel directory sd w,
         os_chdir directory (st_world s) = Ok w ->
         rename_files (S fuel) directory search replace sd rd counter s =
         match scan search replace rd counter
                    {| st_world := w; st_stdout := st_stdout s |} with
         | Done (counter', directories') s' =>
             if sd then
               for_each directories'
                 (fun dir_ c => rename_files fuel dir_ search replace sd rd c)
                 counter' s'
             else Done counter' s'
         | Raised e s' => Raised e s'
         | OutOfFuel => OutOfFuel
         end)
  /\ (forall fuel directory (t : state world) w c0 pre post c1 ds1 s1 a2 s2,
         let turn := scan_entry search replace rd in
         let visit :=
           fun dir_ c => rename_files fuel dir_ search replace true rd c in
         os_chdir directory (st_world t) = Ok w ->
         os_listdir w = Ok (pre ++ file :: post) ->
         for_each pre turn (c0, [])
                  {| st_world := w; st_stdout := st_stdout t |}
         = Done (c1, ds1) s1 ->
         os_path_isdir file (st_world s1) = true ->
         turn file (c1, ds1) s1 = Done a2 s2 ->
         exists p,
           snd a2 = ds1 ++ [p]
           /\ match for_each post turn a2 s2 with
              | Done (c3, ds3) s3 =>
                  exists later,
                    ds3 = ds1 ++ p :: later
                    /\ rename_files (S fuel) directory search replace true rd
                                    c0 t
                       = bind (for_each ds1 visit c3)
                              (fun c4 =>
                                 bind (visit p c4) (for_each later visit)) s3
              | Raised e s3 =>
                  rename_files (S fuel) directory search replace true rd c0 t
                  = Raised e s3
              | OutOfFuel => False
              end)
  /\ (forall fuel directory sd (t : state world) w c0 pre inside post c1 ds1
             s1 new_filename w',
         let turn := scan_entry search replace rd in
         os_chdir directory (st_world t) = Ok w ->
         os_listdir w = Ok (pre ++ inside :: post) ->
         for_each pre turn (c0, [])
                  {| st_world := w; st_stdout := st_stdout t |}
         = Done (c1, ds1) s1 ->
         os_path_isdir inside (st_world s1) = false ->
         os_path_isfile inside (st_world s1) = true ->
         contains search inside = true ->
         get_new_filename inside search replace = Some new_filename ->
         os_rename inside new_filename (st_world s1) = Ok w' ->
         rename_files (S fuel) directory search replace sd rd c0 t
         = match for_each post turn ((c1 + 1)%Z, ds1)
                          {| st_world := w'; st_stdout := st_stdout s1 |} with
           | Done (counter', directories') s' =>
               if sd then
                 for_each directories'
                   (fun dir_ c => rename_files fuel dir_ search replace sd rd c)
                   counter' s'
               else Done counter' s'
           | Raised e s' => Raised e s'
           | OutOfFuel => OutOfFuel
           end)
  /\ rename_files 3 (py "/") (py " ") (py "_") true false 0 (start nested)
     = Done 1%Z
         (at_dir [ ([py "foo bar"], rwx);
                   ([py "foo bar"; py "ba_z.txt"], File);
                   ([py "foo bar"; py "baz.txt"], File) ]
                 [py "foo bar"]).
Proof.
  intros Hd. split; [|split; [|split; [|split; [|split]]]].
  - destruct (get_new_filename_total file search replace) as [new G].
    exists new. split; [exact G|].
    rewrite scan_entry_cases. cbv zeta. rewrite Hd, G. reflexivity.
  - rewrite scan_entry_cases. cbv zeta. now rewrite Hd.
  - intros fuel directory sd w. apply rename_files_recursion.
  - intros fuel directory t w c0 pre post c1 ds1 s1 [c2 ds2] s2 turn visit
           Hc Hl Hpre Hisd Hturn.
    assert (P : exists p, ds2 = ds1 ++ [p]).
    { unfold turn in Hturn. rewrite scan_entry_cases in Hturn.
      cbv zeta in Hturn. rewrite Hisd in Hturn.
      destruct (rd && contains search file).
      - destruct (get_new_filename file search replace) as [new|];
          [|discriminate].
        destruct (os_rename file new (st_world s1)) as [w'|e].
        + injection Hturn as _ <- _. eauto.
        + destruct (is_OSError e); [|discriminate].
          injection Hturn as _ <- _. eauto.
      - injection Hturn as _ <- _. eauto. }
    destruct P as [p ->]. exists p. split; [reflexivity|].
    assert (R : rename_files (S fuel) directory search replace true rd c0 t
                = match for_each post turn (c2, ds1 ++ [p]) s2 with
                  | Done (c3, ds3) s3 => for_each ds3 visit c3 s3
                  | Raised e s3 => Raised e s3
                  | OutOfFuel => OutOfFuel
                  end).
    { rewrite (rename_files_recursion fuel directory search replace true rd
                                      c0 t Hc).
      unfold scan. cbn [st_world]. rewrite Hl, for_each_app.
      unfold bind at 1. fold turn. rewrite Hpre.
      cbn [for_each]. unfold bind at 1. rewrite Hturn.
      destruct (for_each post turn (c2, ds1 ++ [p]) s2) as [[c3 ds3] s3| |];
        reflexivity. }
    pose proof (for_each_scan_grows search replace rd post c2 (ds1 ++ [p]) s2)
      as G. fold turn in G.
    destruct (for_each post turn (c2, ds1 ++ [p]) s2) as [[c3 ds3] s3|e s3|].
    + cbn [outcome_sat snd] in G. destruct G as [later ->].
      exists later. rewrite <- app_assoc. split; [reflexivity|].
      rewrite R, <- app_assoc, for_each_app. cbn [app].
      unfold bind at 1 2.
      destruct (for_each ds1 visit c3 s3) as [c4 s4| |]; reflexivity.
    + exact R.
    + exact G.
  - intros fuel directory sd t w c0 pre inside post c1 ds1 s1 new w' turn
           Hc Hl Hpre Hisd Hisf Hin G R.
    rewrite (rename_files_recursion fuel directory search replace sd rd
                                    c0 t Hc).
    unfold scan. cbn [st_world]. rewrite Hl, for_each_app.
    unfold bind at 1. fold turn. rewrite Hpre.
    cbn [for_each]. unfold bind at 1.
    unfold turn at 1. rewrite scan_entry_cases. cbv zeta.
    rewrite Hisd, Hisf, Hin, G, R. cbn [negb]. reflexivity.
  - vm_compute. reflexivity.
Qed.

Lemma C5_subdirectories_always_recorded_witness :
  os_path_isdir (py "foo bar") (st_world (start nested)) = true
  /\ scan_entry (py " ") (py "_") false (py "foo bar") (0%Z, []) (start nested)
     = Done (0%Z, [py "/foo bar"]) (start nested).
Proof.
  split; [reflexivity|].
  exact (proj1 (proj2 (@C5_subdirectories_always_recorded
                         fs SimFS.os (py " ") (py "_") false (py "foo bar")
                         0%Z [] (start nested) eq_refl))).
Defined.

(** C6. When the rename of an entry fails with an [OSError], the turn of
    the loop returns: the counter is as it was, the world is as it was (the
    entry keeps its name), and for a directory the path recorded for the
    recursion is made of its original name.  The loop goes on with the
    next entry. *)
Theorem C6_failed_rename_not_counted
    (world : Type) (os : OS world) (search replace : str) (rd : bool)
    (file new_filename : str) (counter : Z) (directories : list str)
    (s : state world) (e : exc) :
  get_new_filename file search replace = Some new_filename ->
  os_rename file new_filename (st_world s) = Err e ->
  is_OSError e = true ->
  let directories' :=
    if os_path_isdir file (st_world s)
    then directories ++ [path_join (os_getcwd (st_world s)) file]
    else directories in
  scan_entry search replace rd file (counter, directories) s
  = Done (counter, directories') s
  /\ forall files,
       for_each (file :: files) (scan_entry search replace rd)
                (counter, directories) s
       = for_each files (scan_entry search replace rd)
                  (counter, directories') s.
Proof.
  intros G R E directories'.
  assert (H : scan_entry search replace rd file (counter, directories) s
              = Done (counter, directories') s).
  { rewrite scan_entry_cases. cbv zeta. rewrite G, R, E. subst directories'.
    destruct (os_path_isdir file (st_world s)).
    - destruct (rd && contains search file); reflexivity.
    - destruct (os_path_isfile file (st_world s)); [|reflexivity].
      destruct (negb (contains search file)); reflexivity. }
  split; [exact H|].
  intros files. cbn [for_each]. unfold bind. now rewrite H.
Qed.

Lemma C6_failed_rename_not_counted_witness :
  get_new_filename (py "c d") (py " ") (py "_") = Some (py "c_d")
  /\ os_rename (py "c d") (py "c_d") (st_world (at_dir closed [py "fixed"]))
     = Err PermissionError
  /\ is_OSError PermissionError = true
  /\ scan_entry (py " ") (py "_") true (py "c d") (0%Z, [])
                (at_dir closed [py "fixed"])
     = Done (0%Z, [py "/fixed/c d"]) (at_dir closed [py "fixed"]).
Proof.
  split; [reflexivity|]. split; [reflexivity|]. split; [reflexivity|].
  exact (proj1 (@C6_failed_rename_not_counted
                  fs SimFS.os (py " ") (py "_") true (py "c d") (py "c_d")
                  0%Z [] (at_dir closed [py "fixed"]) PermissionError
                  eq_refl eq_refl eq_refl)).
Defined.

(** C7 fails on a directory that can be entered but not listed:
    [os.chdir] succeeds, [os.listdir] raises [PermissionError] outside every
    [try], and the exception leaves [rename_files]: no count is returned
    and nothing is printed. *)
Theorem C7_listing_failure_raises :
  rename_files 3 (py "/locked") (py " ") (py "_") true false 0 (start closed)
  = Raised PermissionError (at_dir closed [py "locked"]).
Proof. vm_compute. reflexivity. Qed.

(** C8. The counter never decreases: over one turn of the loop, over the
    loop, over the recursive calls made one after the other, and from the
    argument of [rename_files] to the count it returns, on every operating
    system.  On the simulated file system the count is returned or an
    exception is raised: the traversal ends, with fuel for two more levels
    than the file system is deep. *)
Theorem C8_count_never_decreases
    (world : Type) (os : OS world) (search replace : str) (sd rd : bool)
    (fuel : nat) (directory : str) (counter : Z) (s : state world) :
  (forall c' s',
      rename_files fuel directory search replace sd rd counter s = Done c' s' ->
      (counter <= c')%Z)
  /\ (forall file directories a s',
         scan_entry search replace rd file (counter, directories) s = Done a s' ->
         (counter <= fst a)%Z)
  /\ (forall a s',
         scan search replace rd counter s = Done a s' -> (counter <= fst a)%Z)
  /\ (forall directories c' s',
         for_each directories
           (fun dir_ c => rename_files fuel dir_ search replace sd rd c)
           counter s = Done c' s' ->
         (counter <= c')%Z)
  /\ (forall t : state fs,
         well_named (st_world t) ->
         forall fuel', depth (entries (st_world t)) + 2 <= fuel' ->
         rename_files fuel' directory search replace sd rd counter t
         <> OutOfFuel).
Proof.
  split; [|split; [|split; [|split]]].
  - intros c' s' H.
    pose proof (rename_files_monotone search replace sd rd fuel directory
                                      counter s) as M.
    now rewrite H in M.
  - intros file directories a s' H.
    pose proof (scan_entry_monotone search replace rd file counter
                                    directories s) as M.
    now rewrite H in M.
  - intros a s' H.
    pose proof (scan_monotone search replace rd counter s) as M.
    now rewrite H in M.
  - intros directories c' s' H.
    assert (M : outcome_sat (fun c _ => (counter <= c)%Z) (fun _ => True) True
                  (for_each directories
                     (fun dir_ c =>
                        rename_files fuel dir_ search replace sd rd c)
                     counter s)).
    { apply outcome_sat_for_each; [|lia].
      intros d c s0 _ Hc.
      pose proof (rename_files_monotone search replace sd rd fuel d c s0) as M.
      destruct (rename_files fuel d search replace sd rd c s0);
        simpl in *; auto; lia. }
    now rewrite H in M.
  - intros t W fuel' Hf. now apply SimFSFacts.rename_files_total.
Qed.

Lemma C8_count_never_decreases_witness :
  rename_files 5 (py "/tmp/x") (py " ") (py "_") true true 5 (start tmp_x)
  <> OutOfFuel
  /\ (5 <= 7)%Z.
Proof.
  split.
  - apply (proj2 (proj2 (proj2 (proj2
             (@C8_count_never_decreases fs SimFS.os (py " ") (py "_") true true
                3 (py "/tmp/x") 5%Z (start tmp_x))))) (start tmp_x)).
    + split; [constructor|].
      repeat (constructor; [split; [discriminate|repeat constructor]|]).
      constructor.
    + vm_compute. lia.
  - apply (proj1 (@C8_count_never_decreases fs SimFS.os (py " ") (py "_")
                    true true 3 (py "/tmp/x") 5%Z (start tmp_x))
                 7%Z
                 (at_dir [ ([py "tmp"], rwx);
                           ([py "tmp"; py "x"], rwx);
                           ([py "tmp"; py "x"; py "a_b.txt"], File);
                           ([py "tmp"; py "x"; py "ab.txt"], File);
                           ([py "tmp"; py "x"; py "a_b_c.txt"], File) ]
                         [py "tmp"; py "x"])).
    vm_compute. reflexivity.
Defined.

(** C9. An entry whose name holds the search token and whose new name is
    the name it has is renamed all the same, to its own name, and counted
    when the rename succeeds: the world after the turn is the one
    [os.rename] returned.  This is so whenever the replacement is the
    search token.  The count can then exceed the number of names that
    changed: on a directory with the one file [ab], replacing ["a"] by
    ["a"] returns 1 and changes nothing. *)
Theorem C9_unchanged_name_counted
    (world : Type) (os : OS world) (search replace : str) (rd : bool)
    (file : str) (counter : Z) (directories : list str) (s : state world)
    (w' : world) :
  contains search file = true ->
  get_new_filename file search replace = Some file ->
  (if os_path_isdir file (st_world s) then rd = true
   else os_path_isfile file (st_world s) = true) ->
  os_rename file file (st_world s) = Ok w' ->
  scan_entry search replace rd file (counter, directories) s
  = Done ((counter + 1)%Z,
          if os_path_isdir file (st_world s)
          then directories ++ [path_join (os_getcwd w') file]
          else directories)
         {| st_world := w'; st_stdout := st_stdout s |}
  /\ (forall n t, t <> [] -> t <> py " " -> get_new_filename n t t = Some n)
  /\ rename_files 3 (py "/") (py "a") (py "a") true false 0
                  (start [([py "ab"], File)])
     = Done 1%Z (at_dir [([py "ab"], File)] []).
Proof.
  intros C G K R. split; [|split].
  - rewrite scan_entry_cases. cbv zeta. rewrite C, G, R.
    destruct (os_path_isdir file (st_world s)).
    + subst rd. reflexivity.
    + rewrite K. reflexivity.
  - intros n t Ht Hsp. rewrite get_new_filename_literal by assumption.
    now rewrite replace_all_same.
  - vm_compute. reflexivity.
Qed.

Lemma C9_unchanged_name_counted_witness :
  contains (py "a") (py "ab") = true
  /\ get_new_filename (py "ab") (py "a") (py "a") = Some (py "ab")
  /\ os_path_isfile (py "ab") (st_world (start [([py "ab"], File)])) = true
  /\ os_rename (py "ab") (py "ab") (st_world (start [([py "ab"], File)]))
     = Ok (st_world (start [([py "ab"], File)]))
  /\ scan_entry (py "a") (py "a") false (py "ab") (0%Z, [])
                (start [([py "ab"], File)])
     = Done (1%Z, []) (start [([py "ab"], File)]).
Proof.
  split; [reflexivity|]. split; [reflexivity|]. split; [reflexivity|].
  split; [reflexivity|].
  exact (proj1 (@C9_unchanged_name_counted
                  fs SimFS.os (py "a") (py "a") false (py "ab") 0%Z []
                  (start [([py "ab"], File)])
                  (st_world (start [([py "ab"], File)]))
                  eq_refl eq_refl eq_refl eq_refl)).
Defined.

(** C10. With the single space as search token the loop still asks whether
    the space itself occurs in the name: an entry whose name holds no space
    is not renamed and not counted, and the world stays as it is, although
    [get_new_filename] would change the name whenever it holds some other
    whitespace character and the replacement holds none. *)
Theorem C10_space_gate_is_literal
    (world : Type) (os : OS world) (replace : str) (rd : bool)
    (file : str) (counter : Z) (directories : list str) (s : state world) :
  contains (py " ") file = false ->
  scan_entry (py " ") replace rd file (counter, directories) s
  = Done (counter,
          if os_path_isdir file (st_world s)
          then directories ++ [path_join (os_getcwd (st_world s)) file]
          else directories) s
  /\ (existsb Re.is_space file = true ->
      forallb (fun c => negb (Re.is_space c)) replace = true ->
      get_new_filename file (py " ") replace <> Some file).
Proof.
  intros C. split.
  - rewrite scan_entry_cases. cbv zeta. rewrite C, andb_false_r. cbn [negb].
    destruct (os_path_isdir file (st_world s)); [reflexivity|].
    destruct (os_path_isfile file (st_world s)); reflexivity.
  - intros Hw Hr. rewrite get_new_filename_space. intros H. injection H as H.
    pose proof (collapse_clean replace Hr file false) as K.
    fold (Spec.collapse_whitespace replace file) in K. rewrite H in K.
    rewrite forallb_not_existsb, Hw in K. discriminate K.
Qed.

Lemma C10_space_gate_is_literal_witness :
  contains (py " ") [97; 9; 98]%N = false
  /\ scan_entry (py " ") (py "_") false [97; 9; 98]%N (0%Z, [])
                (start [([[97; 9; 98]%N], File)])
     = Done (0%Z, []) (start [([[97; 9; 98]%N], File)])
  /\ get_new_filename [97; 9; 98]%N (py " ") (py "_") = Some (py "a_b").
Proof.
  split; [reflexivity|]. split; [|reflexivity].
  exact (proj1 (@C10_space_gate_is_literal
                  fs SimFS.os (py "_") false [97; 9; 98]%N 0%Z []
                  (start [([[97; 9; 98]%N], File)]) eq_refl)).
Defined.

End Claims.
(* ================================================================= *)
(** ** More of [get_new_filename] *)

Section MoreProperties.

Import SimFS.

Section TransformEdges.

Import Re Spec.

Lemma split_loop_empty_pattern (n : str) :
  forall fuel, length n < fuel ->
    split_loop fuel [] true n = map (fun c => [c]) n ++ [[]].
Proof.
  induction n as [|c n IH]; intros [|fuel] L; try (simpl in L; lia).
  - reflexivity.
  - cbn [split_loop search match_at match_here andb].
    destruct n as [|d n].
    + cbn [search match_at match_here]. cbn [firstn skipn Nat.add Nat.eqb].
      destruct fuel; [simpl in L; lia|]. reflexivity.
    + cbn [search match_at match_here]. cbn [firstn skipn Nat.add Nat.eqb].
      rewrite IH by (simpl in *; lia). reflexivity.
Qed.

Lemma join_single_chars (r n : str) :
  join r (map (fun c => [c]) n ++ [[]]) = flat_map (fun c => c :: r) n.
Proof.
  induction n as [|c n IH]; [reflexivity|].
  cbn [map app flat_map]. rewrite join_cons.
  - now rewrite IH.
  - destruct n; discriminate.
Qed.

Lemma split_loop_pieces (p : regex) :
  forall fuel ma n piece,
    In piece (split_loop fuel p ma n) -> forall c, In c piece -> In c n.
Proof.
  induction fuel as [|fuel IH]; intros ma n piece; cbn [split_loop].
  - intros [<-|[]]. auto.
  - destruct (search p ma n) as [[i len]|].
    + intros [<-|H] c Hc.
      * rewrite <- (firstn_skipn i n). apply in_or_app. now left.
      * rewrite <- (firstn_skipn (i + len) n). apply in_or_app. right.
        eapply IH; eauto.
    + intros [<-|[]]. auto.
Qed.

Lemma join_In (r : str) (c : char) :
  forall ps, In c (join r ps) -> In c r \/ exists p, In p ps /\ In c p.
Proof.
  induction ps as [|p ps IH]; [intros []|].
  destruct ps as [|q ps].
  - cbn [join]. intros H. right. exists p. split; [now left|exact H].
  - rewrite join_cons by discriminate. intros H.
    apply in_app_or in H. destruct H as [H|H].
    + right. exists p. split; [now left|exact H].
    + apply in_app_or in H. destruct H as [H|H]; [now left|].
      destruct (IH H) as [K|(x & Hx & Hc)]; [now left|].
      right. exists x. split; [now right|exact Hc].
Qed.

End TransformEdges.

(** X1. Whatever the search token holds, the pattern built from it
    compiles, and [get_new_filename] returns a name: it raises no
    [re.error]. *)
Theorem X1_get_new_filename_never_raises (n s r : str) :
  exists p,
    Re.compile (pattern_of s) = Some p
    /\ get_new_filename n s r = Some (join r (Re.split_regex p n)).
Proof.
  unfold get_new_filename, Re.split, pattern_of.
  destruct (str_eqb s (py " ")).
  - exists [(Re.Whitespace, Re.Plus)]. now rewrite compile_whitespace_run.
  - exists (Re.literal s). now rewrite compile_escape.
Qed.

(** X2. With the empty search token (as [re.split] treats empty matches
    since Python 3.7) the replacement is put before the name, after it and
    between every two characters; of the empty name the replacement alone
    is left. *)
Theorem X2_empty_token_surrounds_characters (n r : str) :
  get_new_filename n [] r = Some (r ++ flat_map (fun c => c :: r) n).
Proof.
  unfold get_new_filename, Re.split, pattern_of.
  change (str_eqb [] (py " ")) with false. cbv iota.
  change (Re.compile (Re.escape [])) with (Some ([] : Re.regex)).
  f_equal. unfold Re.split_regex.
  replace (2 * length n + 2) with (S (2 * length n + 1)) by lia.
  cbn [Re.split_loop].
  assert (S0 : Re.search [] false n = Some (0, 0)) by (destruct n; reflexivity).
  rewrite S0. cbn [firstn skipn Nat.add Nat.eqb].
  rewrite split_loop_empty_pattern by lia.
  rewrite join_cons by (destruct n; discriminate).
  now rewrite join_single_chars.
Qed.

(** X3. Every character of the new name is a character of the old name or
    of the replacement: the new name holds a path separator only if the
    old name or the replacement does. *)
Theorem X3_new_name_characters (n s r m : str) :
  get_new_filename n s r = Some m ->
  (forall c, In c m -> In c n \/ In c r)
  /\ (mem sep n = false -> mem sep r = false -> mem sep m = false).
Proof.
  intros H.
  assert (K : forall c, In c m -> In c n \/ In c r).
  { unfold get_new_filename, Re.split in H.
    destruct (Re.compile (pattern_of s)) as [p|]; [|discriminate].
    injection H as <-. intros c Hc. apply join_In in Hc.
    destruct Hc as [Hc|(piece & Hp & Hc)]; [now right|].
    left. eapply split_loop_pieces; eauto. }
  split; [exact K|].
  intros Hn Hr. destruct (mem sep m) eqn:E; [|reflexivity].
  apply mem_true_In in E. destruct (K _ E) as [Hc|Hc].
  - pose proof (@mem_false_neq sep sep n Hn Hc) as F.
    now rewrite N.eqb_refl in F.
  - pose proof (@mem_false_neq sep sep r Hr Hc) as F.
    now rewrite N.eqb_refl in F.
Qed.

Lemma X3_new_name_characters_witness :
  get_new_filename (py "a b") (py " ") (py "_") = Some (py "a_b")
  /\ mem sep (py "a_b") = false.
Proof.
  split; [reflexivity|].
  exact (proj2 (@X3_new_name_characters (py "a b") (py " ") (py "_")
                  (py "a_b") eq_refl) eq_refl eq_refl).
Defined.

(** X4. With the single space as search token and a replacement that holds
    no whitespace, the new name holds no whitespace character, and renaming
    it again leaves it as it is. *)
Theorem X4_space_token_idempotent (n r t : str) :
  forallb (fun c => negb (Re.is_space c)) r = true ->
  get_new_filename n (py " ") r = Some t ->
  forallb (fun c => negb (Re.is_space c)) t = true
  /\ get_new_filename t (py " ") r = Some t.
Proof.
  intros Hr H. rewrite get_new_filename_space in H. injection H as <-.
  assert (C : forallb (fun c => negb (Re.is_space c))
                      (Spec.collapse_whitespace r n) = true)
    by now apply collapse_clean.
  split; [exact C|].
  rewrite get_new_filename_space. now rewrite collapse_no_space.
Qed.

Lemma X4_space_token_idempotent_witness :
  forallb (fun c => negb (Re.is_space c)) (py "_") = true
  /\ get_new_filename (py "a  b c") (py " ") (py "_") = Some (py "a_b_c")
  /\ get_new_filename (py "a_b_c") (py " ") (py "_") = Some (py "a_b_c").
Proof.
  split; [reflexivity|]. split; [reflexivity|].
  exact (proj2 (@X4_space_token_idempotent (py "a  b c") (py "_") (py "a_b_c")
                  eq_refl eq_refl)).
Defined.

(* ================================================================= *)
(** ** More of [rename_files] *)

Section TraversalEdges.

Context {world : Type} {os : OS world}.

Lemma scan_entry_step (search replace : str) (rd : bool) (file : str)
      (counter : Z) (directories : list str) (s : state world) :
  outcome_sat
    (fun a _ => (counter <= fst a <= counter + 1)%Z
                /\ length (snd a) <= length directories + 1)
    (fun _ => True) True
    (scan_entry search replace rd file (counter, directories) s).
Proof.
  rewrite scan_entry_cases. cbv zeta.
  repeat match goal with
         | |- context [if ?b then _ else _] => destruct b
         | |- context [match ?x with _ => _ end] => destruct x
         end; cbn [outcome_sat fst snd]; auto;
    rewrite ?length_app; cbn [length]; lia.
Qed.

Lemma for_each_scan_bounds (search replace : str) (rd : bool) :
  forall files counter directories (s : state world),
    outcome_sat
      (fun a _ => (counter <= fst a <= counter + Z.of_nat (length files))%Z
                  /\ length (snd a) <= length directories + length files)
      (fun _ => True) True
      (for_each files (scan_entry search replace rd) (counter, directories) s).
Proof.
  induction files as [|file files IH]; intros counter directories s.
  - cbn [for_each ret outcome_sat fst snd length]. lia.
  - cbn [for_each]. unfold bind.
    pose proof (scan_entry_step search replace rd file counter directories s)
      as H.
    destruct (scan_entry search replace rd file (counter, directories) s)
      as [[c1 ds1] s1| |]; [|exact I|exact I].
    cbn [outcome_sat fst snd] in H. specialize (IH c1 ds1 s1).
    destruct (for_each files (scan_entry search replace rd) (c1, ds1) s1)
      as [[c2 ds2] s2| |]; [|exact I|exact I].
    cbn [outcome_sat fst snd length] in *. lia.
Qed.

Lemma for_each_no_match (search replace : str) (rd : bool) (s : state world) :
  forall files counter directories,
    forallb (fun file => negb (contains search file)) files = true ->
    for_each files (scan_entry search replace rd) (counter, directories) s
    = Done (counter,
            directories
            ++ map (path_join (os_getcwd (st_world s)))
                   (filter (fun file => os_path_isdir file (st_world s)) files))
           s.
Proof.
  induction files as [|file files IH]; intros counter directories H.
  - cbn [for_each ret filter map]. now rewrite app_nil_r.
  - cbn [forallb] in H. apply andb_true_iff in H. destruct H as [H1 H2].
    apply negb_true_iff in H1.
    cbn [for_each]. unfold bind. rewrite scan_entry_cases. cbv zeta.
    rewrite H1, andb_false_r. cbn [negb filter].
    destruct (os_path_isdir file (st_world s)).
    + rewrite IH by exact H2. cbn [map]. now rewrite <- app_assoc.
    + destruct (os_path_isfile file (st_world s)); now rewrite IH.
Qed.

End TraversalEdges.

(** X5. One pass over a listing renames at most as many entries as it
    lists: the counter grows by no more than the number of entries, and no
    more directories are recorded than there are entries. *)
Theorem X5_scan_bounded_by_listing
    (world : Type) (os : OS world) (search replace : str) (rd : bool)
    (counter counter' : Z) (files directories : list str)
    (s s' : state world) :
  os_listdir (st_world s) = Ok files ->
  scan search replace rd counter s = Done (counter', directories) s' ->
  (counter <= counter' <= counter + Z.of_nat (length files))%Z
  /\ length directories <= length files.
Proof.
  intros L H. unfold scan in H. rewrite L in H.
  pose proof (for_each_scan_bounds search replace rd files counter [] s) as B.
  rewrite H in B. exact B.
Qed.

Lemma X5_scan_bounded_by_listing_witness :
  os_listdir (st_world (SimFS.at_dir SimFS.tmp_x [py "tmp"; py "x"]))
  = Ok [py "a b.txt"; py "ab.txt"; py "a b c.txt"]
  /\ (0 <= 2 <= 0 + 3)%Z.
Proof.
  split; [reflexivity|].
  refine (proj1 (@X5_scan_bounded_by_listing
                   SimFS.fs SimFS.os (py " ") (py "_") false 0%Z 2%Z
                   [py "a b.txt"; py "ab.txt"; py "a b c.txt"] []
                   (SimFS.at_dir SimFS.tmp_x [py "tmp"; py "x"])
                   _ eq_refl _)).
  vm_compute. reflexivity.
Defined.

(** X6. Where no name of the listing holds the search token, nothing is
    renamed: the pass returns the counter and the state as they were, and
    records the entries that are directories, in the order of the listing.
    Without [sub_directories], [rename_files] then returns the counter it
    was given, in the world [os.chdir] left. *)
Theorem X6_nothing_to_rename
    (world : Type) (os : OS world) (directory search replace : str)
    (sd rd : bool) (counter : Z) (files : list str) (s : state world)
    (w : world) (fuel : nat) :
  os_chdir directory (st_world s) = Ok w ->
  os_listdir w = Ok files ->
  forallb (fun file => negb (contains search file)) files = true ->
  let s' := {| st_world := w; st_stdout := st_stdout s |} in
  scan search replace rd counter s'
  = Done (counter,
          map (path_join (os_getcwd w))
              (filter (fun file => os_path_isdir file w) files)) s'
  /\ rename_files (S fuel) directory search replace false rd counter s
     = Done counter s'.
Proof.
  intros C L H s'.
  assert (K : scan search replace rd counter s'
              = Done (counter,
                      map (path_join (os_getcwd w))
                          (filter (fun file => os_path_isdir file w) files))
                     s').
  { unfold scan. subst s'. cbn [st_world]. rewrite L.
    now rewrite for_each_no_match. }
  split; [exact K|].
  rewrite (rename_files_recursion fuel directory search replace false rd
                                  counter s C).
  fold s'. now rewrite K.
Qed.

Lemma X6_nothing_to_rename_witness :
  os_chdir (py "/tmp/x") (st_world (SimFS.start SimFS.tmp_x))
  = Ok (st_world (SimFS.at_dir SimFS.tmp_x [py "tmp"; py "x"]))
  /\ rename_files 1 (py "/tmp/x") (py "-") (py "_") false true 7
                  (SimFS.start SimFS.tmp_x)
     = Done 7%Z (SimFS.at_dir SimFS.tmp_x [py "tmp"; py "x"]).
Proof.
  split; [reflexivity|].
  exact (proj2 (@X6_nothing_to_rename
                  SimFS.fs SimFS.os (py "/tmp/x") (py "-") (py "_") true true
                  7%Z [py "a b.txt"; py "ab.txt"; py "a b c.txt"]
                  (SimFS.start SimFS.tmp_x)
                  (st_world (SimFS.at_dir SimFS.tmp_x [py "tmp"; py "x"]))
                  0 eq_refl eq_refl eq_refl)).
Defined.

(** X8. Only an [OSError] of [os.rename] is swallowed.  When the rename of
    the first entry of the listing raises anything else, the exception
    leaves [rename_files]: no count is returned, and the entries after it
    are not looked at. *)
Theorem X8_other_exceptions_leave
    (world : Type) (os : OS world) (directory search replace : str)
    (sd rd : bool) (counter : Z) (file new_filename : str)
    (files : list str) (s : state world) (w : world) (e : exc)
    (fuel : nat) :
  os_chdir directory (st_world s) = Ok w ->
  os_listdir w = Ok (file :: files) ->
  contains search file = true ->
  (if os_path_isdir file w then rd = true else os_path_isfile file w = true) ->
  get_new_filename file search replace = Some new_filename ->
  os_rename file new_filename w = Err e ->
  is_OSError e = false ->
  rename_files (S fuel) directory search replace sd rd counter s
  = Raised e {| st_world := w; st_stdout := st_stdout s |}.
Proof.
  intros C L M K G R E.
  rewrite (rename_files_recursion fuel directory search replace sd rd
                                  counter s C).
  unfold scan. cbn [st_world]. rewrite L. cbn [for_each]. unfold bind.
  rewrite scan_entry_cases. cbv zeta. cbn [st_world].
  rewrite M, G, R, E.
  destruct (os_path_isdir file w).
  - subst rd. reflexivity.
  - rewrite K. reflexivity.
Qed.

Lemma X8_other_exceptions_leave_witness :
  os_rename (py "a b.txt") [97; 0; 98; 46; 116; 120; 116]%N
            (st_world (SimFS.at_dir SimFS.tmp_x [py "tmp"; py "x"]))
  = Err ValueError
  /\ rename_files 1 (py "/tmp/x") (py " ") [0%N] false false 0
                  (SimFS.start SimFS.tmp_x)
     = Raised ValueError (SimFS.at_dir SimFS.tmp_x [py "tmp"; py "x"]).
Proof.
  split; [reflexivity|].
  exact (@X8_other_exceptions_leave
           SimFS.fs SimFS.os (py "/tmp/x") (py " ") [0%N] false false 0%Z
           (py "a b.txt") [97; 0; 98; 46; 116; 120; 116]%N
           [py "ab.txt"; py "a b c.txt"] (SimFS.start SimFS.tmp_x)
           (st_world (SimFS.at_dir SimFS.tmp_x [py "tmp"; py "x"]))
           ValueError 0 eq_refl eq_refl eq_refl eq_refl eq_refl eq_refl
           eq_refl).
Defined.

(* ================================================================= *)
(** ** The prompts *)

Section PromptFacts.

Context {world : Type} {os : OS world}.

Variable lower : str -> str.

Lemma complain_world (error_message : option str) (s : state world) :
  st_world (complain error_message s) = st_world s.
Proof.
  unfold complain. destruct error_message as [m|]; [|reflexivity].
  destruct (nonempty m); reflexivity.
Qed.

(** What the loop of [prompt_for_answer] returns was accepted; the world
    is not touched and at least one key is read. *)
Lemma ask_again_kept (prompt : str) (expected_input : expected world)
      (error_message : option str) (allow : bool) :
  forall keys (s : state world) shown,
    match ask_again lower prompt expected_input error_message allow
                    keys s shown with
    | Answer a c =>
        check_answer lower a expected_input allow (st_world s) = true
        /\ st_world (con_state c) = st_world s
        /\ length (con_stdin c) < length keys
    | Exit c => st_world (con_state c) = st_world s
    end.
Proof.
  induction keys as [|k keys IH]; intros s shown; cbn [ask_again].
  - cbn [leave print con_state st_world]. apply complain_world.
  - destruct k as [answer|].
    + rewrite complain_world.
      destruct (check_answer lower answer expected_input allow (st_world s))
        eqn:E.
      * cbn [con_state con_stdin length]. rewrite complain_world. auto.
      * specialize (IH (complain error_message s)
                       (shown ++ [CBEIGE ++ prompt ++ CEND])).
        destruct (ask_again lower prompt expected_input error_message allow
                            keys _ _).
        -- rewrite complain_world in IH. cbn [length]. intuition lia.
        -- now rewrite complain_world in IH.
    + cbn [leave print con_state st_world]. apply complain_world.
Qed.

Lemma prompt_for_answer_kept (prompt : str) (expected_input : expected world)
      (error_message : option str) (allow : bool) (c : console world) :
  match prompt_for_answer lower prompt expected_input error_message allow c
  with
  | Answer a c' =>
      (truthy expected_input = true ->
       check_answer lower a expected_input allow (st_world (con_state c))
       = true)
      /\ (truthy expected_input = false ->
          exists text keys,
            con_stdin c = Line text :: keys /\ a = strip text
            /\ con_stdin c' = keys)
      /\ st_world (con_state c') = st_world (con_state c)
      /\ length (con_stdin c') < length (con_stdin c)
  | Exit c' => st_world (con_state c') = st_world (con_state c)
  end.
Proof.
  unfold prompt_for_answer. destruct (con_stdin c) as [|[text|] keys];
    try reflexivity.
  destruct (truthy expected_input).
  - destruct (check_answer lower (strip text) expected_input allow
                           (st_world (con_state c))) eqn:E.
    + cbn [con_state con_stdin length]. repeat split; auto; discriminate.
    + pose proof (ask_again_kept prompt expected_input error_message allow
                                 keys (con_state c)
                                 (con_prompts c ++ [CBEIGE ++ prompt ++ CEND]))
        as H.
      destruct (ask_again lower prompt expected_input error_message allow
                          keys _ _); [|exact H].
      cbn [length]. destruct H as (H1 & H2 & H3).
      repeat split; auto; try discriminate; lia.
  - cbn [con_state con_stdin length]. repeat split; auto; try discriminate.
    intros _. exists text, keys. auto.
Qed.

(** After [k] wrong answers more, the loop returns the next answer as it
    was typed. *)
Lemma ask_again_retries (prompt : str) (expected_input : expected world)
      (error_message : option str) (allow : bool) (answer : str)
      (rest : list key) :
  forall wrong (s : state world) shown,
    check_answer lower answer expected_input allow (st_world s) = true ->
    Forall (fun a => check_answer lower a expected_input allow (st_world s)
                     = false) wrong ->
    ask_again lower prompt expected_input error_message allow
              (map Line wrong ++ Line answer :: rest) s shown
    = Answer answer
        {| con_state := Nat.iter (S (length wrong)) (complain error_message) s;
           con_stdin := rest;
           con_prompts :=
             shown ++ repeat (CBEIGE ++ prompt ++ CEND) (S (length wrong)) |}.
Proof.
  induction wrong as [|a wrong IH]; intros s shown Hok Hwrong.
  - cbn [map app ask_again]. rewrite complain_world, Hok. reflexivity.
  - inversion Hwrong as [|? ? Ha Hw]; subst.
    cbn [map app ask_again]. rewrite complain_world, Ha.
    rewrite IH; rewrite ?complain_world; auto.
    f_equal. f_equal.
    + cbn [length]. now rewrite <- !Nat.iter_succ_r.
    + cbn [length repeat]. now rewrite <- app_assoc.
Qed.

(** After [k] wrong answers more, an interrupt or the end of the input
    ends the run. *)
Lemma ask_again_leaves (prompt : str) (expected_input : expected world)
      (error_message : option str) (allow : bool) (tail : list key) :
  match tail with Line _ :: _ => False | _ => True end ->
  forall wrong (s : state world) shown,
    Forall (fun a => check_answer lower a expected_input allow (st_world s)
                     = false) wrong ->
    ask_again lower prompt expected_input error_message allow
              (map Line wrong ++ tail) s shown
    = Exit
        {| con_state :=
             print [] (Nat.iter (S (length wrong)) (complain error_message) s);
           con_stdin := tl tail;
           con_prompts :=
             shown ++ repeat (CBEIGE ++ prompt ++ CEND) (S (length wrong)) |}.
Proof.
  intros Ht. induction wrong as [|a wrong IH]; intros s shown Hwrong.
  - cbn [map app]. destruct tail as [|[x|] rest]; [|contradiction|];
      reflexivity.
  - inversion Hwrong as [|? ? Ha Hw]; subst.
    cbn [map app ask_again]. rewrite complain_world, Ha.
    rewrite IH by (rewrite ?complain_world; auto).
    unfold print. f_equal. f_equal.
    + cbn [length]. now rewrite <- !Nat.iter_succ_r.
    + cbn [length repeat]. now rewrite <- app_assoc.
Qed.

Lemma lstrip_clean (s : str) :
  match lstrip s with
  | c :: _ => Re.is_space c = false
  | [] => True
  end.
Proof.
  induction s as [|c s IH]; [exact I|].
  cbn [lstrip]. destruct (Re.is_space c) eqn:E; [exact IH|exact E].
Qed.

Lemma lstrip_id (s : str) :
  match s with
  | c :: _ => Re.is_space c = false
  | [] => True
  end -> lstrip s = s.
Proof. destruct s as [|c s]; [reflexivity|]. cbn [lstrip]. now intros ->. Qed.

Lemma lstrip_suffix (s : str) : exists p, s = p ++ lstrip s.
Proof.
  induction s as [|c s [p IH]]; [now exists []|].
  cbn [lstrip]. destruct (Re.is_space c).
  - exists (c :: p). cbn [app]. now rewrite <- IH.
  - now exists [].
Qed.

(** A stripped string starts and ends with no whitespace: stripping it
    again changes nothing. *)
Lemma strip_strip (s : str) : strip (strip s) = strip s.
Proof.
  unfold strip. set (t := lstrip s).
  assert (Ht : match t with c :: _ => Re.is_space c = false | [] => True end)
    by apply lstrip_clean.
  set (u := lstrip (rev t)).
  assert (Hu : match u with c :: _ => Re.is_space c = false | [] => True end)
    by apply lstrip_clean.
  destruct (lstrip_suffix (rev t)) as [p Hp]. fold u in Hp.
  assert (T : t = rev u ++ rev p).
  { rewrite <- (rev_involutive t), Hp. apply rev_app_distr. }
  assert (R : lstrip (rev u) = rev u).
  { apply lstrip_id. destruct (rev u) as [|c v] eqn:E; [exact I|].
    rewrite T in Ht. exact Ht. }
  rewrite R, rev_involutive. now rewrite (lstrip_id u Hu).
Qed.

End PromptFacts.

Section MainFacts.

Context {world : Type} {os : OS world}.

Variable lower : str -> str.

Lemma complain_stdout (message : str) (k : nat) (s : state world) :
  nonempty message = true ->
  st_stdout (Nat.iter k (complain (Some message)) s)
  = st_stdout s ++ repeat ([10%N] ++ CRED ++ message ++ CEND ++ [10%N]) k.
Proof.
  intros H. induction k as [|k IH]; [cbn; now rewrite app_nil_r|].
  rewrite Nat.iter_succ. unfold complain at 1. rewrite H.
  cbn [print_error_message st_stdout]. rewrite IH, <- app_assoc.
  f_equal. cbn [repeat]. now rewrite repeat_cons.
Qed.

Lemma check_directory (answer : str) (w : world) :
  check_answer lower answer (Callable os_path_isdir) true w
  = if nonempty answer then os_path_isdir answer w else true.
Proof.
  unfold check_answer. destruct (nonempty answer); reflexivity.
Qed.

Ltac next_prompt :=
  match goal with
  | |- context [then_prompt (prompt_for_answer ?l ?p ?e ?m ?a ?c) _] =>
      let P := fresh "P" in
      pose proof (prompt_for_answer_kept l p e m a c) as P;
      destruct (prompt_for_answer l p e m a c); cbn [then_prompt]
  end.

(** What [main] has when its five prompts are answered, and what it has
    left when one of them ends the run. *)
Lemma main_kwargs_kept (c : console world) :
  match main_kwargs lower c with
  | Answer kw c' =>
      kw_directory kw <> [] /\ kw_search kw <> [] /\ kw_replace kw <> []
      /\ (kw_directory kw = py "."
          \/ os_path_isdir (kw_directory kw) (st_world (con_state c)) = true)
      /\ (kw_search kw = py " " \/ strip (kw_search kw) = kw_search kw)
      /\ (kw_replace kw = py "_" \/ strip (kw_replace kw) = kw_replace kw)
      /\ st_world (con_state c') = st_world (con_state c)
      /\ length (con_stdin c') + 5 <= length (con_stdin c)
  | Exit c' => st_world (con_state c') = st_world (con_state c)
  end.
Proof.
  unfold main_kwargs.
  next_prompt; [|exact P].
  destruct P as (P1 & _ & P2 & P3). specialize (P1 eq_refl).
  rewrite check_directory in P1.
  next_prompt; [|congruence].
  destruct P as (_ & Q1 & Q2 & Q3). destruct (Q1 eq_refl) as (t1 & k1 & _ & -> & _).
  next_prompt; [|congruence].
  destruct P as (_ & R1 & R2 & R3). destruct (R1 eq_refl) as (t2 & k2 & _ & -> & _).
  next_prompt; [|congruence].
  destruct P as (_ & _ & S2 & S3).
  next_prompt; [|congruence].
  destruct P as (_ & _ & T2 & T3).
  cbn [kw_directory kw_search kw_replace]. unfold or_default.
  repeat split; try congruence; try lia.
  - destruct (nonempty a) eqn:E; [|discriminate]. destruct a; discriminate.
  - destruct (nonempty (strip t1)) eqn:E; [|discriminate].
    destruct (strip t1); discriminate.
  - destruct (nonempty (strip t2)) eqn:E; [|discriminate].
    destruct (strip t2); discriminate.
  - destruct (nonempty a); [now right|now left].
  - destruct (nonempty (strip t1)); [right; apply strip_strip|now left].
  - destruct (nonempty (strip t2)); [right; apply strip_strip|now left].
Qed.

End MainFacts.

(** X9. With a function as [expected_input], the empty answer is accepted
    without calling the function when [allow_empty_answer] is set; every
    other answer, and the empty one when it is not set, is what the
    function says.  With any other [expected_input],
    [allow_empty_answer] is not looked at. *)
Theorem X9_check_answer_empty_answer
    (world : Type) (lower : str -> str) (answer : str)
    (f : str -> world -> bool) (allow : bool) (w : world) :
  check_answer lower answer (Callable f) allow w
  = (if negb (nonempty answer) && allow then true else f answer w)
  /\ (forall values,
         check_answer lower answer (Choices values) allow w
         = existsb (str_eqb (lower answer)) values)
  /\ (forall value,
         check_answer lower answer (Text value) allow w
         = str_eqb (lower answer) value).
Proof.
  split; [|split; reflexivity].
  unfold check_answer. destruct (nonempty answer), allow; reflexivity.
Qed.

(** X10. When [expected_input] is true, an answer [prompt_for_answer]
    returns is one [check_answer] accepts; the world is the one it started
    in, and at least one key was read. *)
Theorem X10_prompt_returns_accepted
    (world : Type) (lower : str -> str) (prompt : str)
    (expected_input : expected world) (error_message : option str)
    (allow : bool) (c c' : console world) (a : str) :
  truthy expected_input = true ->
  prompt_for_answer lower prompt expected_input error_message allow c
  = Answer a c' ->
  check_answer lower a expected_input allow (st_world (con_state c)) = true
  /\ st_world (con_state c') = st_world (con_state c)
  /\ length (con_stdin c') < length (con_stdin c).
Proof.
  intros T H.
  pose proof (prompt_for_answer_kept lower prompt expected_input error_message
                                     allow c) as K.
  rewrite H in K. destruct K as (K1 & _ & K2 & K3). auto.
Qed.

Lemma X10_prompt_returns_accepted_witness :
  let c := {| con_state := start nested;
              con_stdin := [Line (py "maybe"); Line (py "Y"); Line (py "n")];
              con_prompts := [] |} in
  truthy (Choices (world := fs) yes_or_no) = true
  /\ check_answer ascii_lower (py "Y") (Choices yes_or_no) false
                  (st_world (con_state c)) = true.
Proof.
  intros c. split; [reflexivity|].
  refine (proj1 (@X10_prompt_returns_accepted
                   fs ascii_lower (py "Sure? ") (Choices yes_or_no)
                   (Some (py "Please enter either yes(y) or no(n)")) false
                   c _ (py "Y") eq_refl _)).
  vm_compute. reflexivity.
Defined.

(** X11. Only the first answer is stripped.  When the first answer,
    stripped, and the answers after it are refused, the first answer that
    is accepted is returned as it was typed; the keys after it are left
    unread, and the prompt was shown once for every answer.  A non-empty
    [error_message] was printed once for every answer refused. *)
Theorem X11_prompt_retries
    (world : Type) (lower : str -> str) (prompt : str)
    (expected_input : expected world) (error_message : option str)
    (allow : bool) (c : console world) (first answer : str)
    (wrong : list str) (rest : list key) :
  let w := st_world (con_state c) in
  truthy expected_input = true ->
  con_stdin c = Line first :: map Line wrong ++ Line answer :: rest ->
  check_answer lower (strip first) expected_input allow w = false ->
  Forall (fun a => check_answer lower a expected_input allow w = false)
         wrong ->
  check_answer lower answer expected_input allow w = true ->
  prompt_for_answer lower prompt expected_input error_message allow c
  = Answer answer
      {| con_state :=
           Nat.iter (S (length wrong)) (complain error_message) (con_state c);
         con_stdin := rest;
         con_prompts :=
           con_prompts c
           ++ repeat (CBEIGE ++ prompt ++ CEND) (S (S (length wrong))) |}
  /\ (forall message,
         error_message = Some message -> nonempty message = true ->
         st_stdout (Nat.iter (S (length wrong)) (complain error_message)
                             (con_state c))
         = st_stdout (con_state c)
           ++ repeat ([10%N] ++ CRED ++ message ++ CEND ++ [10%N])
                     (S (length wrong))).
Proof.
  intros w T K F W A. split.
  - unfold prompt_for_answer. rewrite K, T. fold w. rewrite F.
    rewrite ask_again_retries by assumption.
    do 2 f_equal. rewrite <- app_assoc. reflexivity.
  - intros message -> M. now apply complain_stdout.
Qed.

Lemma X11_prompt_retries_witness :
  let c := {| con_state := start nested;
              con_stdin := [Line (py " maybe "); Line (py " y");
                            Line (py "Y "); Line (py "NO"); Line (py "x")];
              con_prompts := [] |} in
  prompt_for_answer ascii_lower (py "? ") (Choices yes_or_no)
                    (Some (py "yes or no")) false c
  = Answer (py "NO")
      {| con_state :=
           Nat.iter 3 (complain (Some (py "yes or no"))) (start nested);
         con_stdin := [Line (py "x")];
         con_prompts := repeat (CBEIGE ++ py "? " ++ CEND) 4 |}.
Proof.
  intros c.
  refine (proj1 (@X11_prompt_retries
                   fs ascii_lower (py "? ") (Choices yes_or_no)
                   (Some (py "yes or no")) false c (py " maybe ") (py "NO")
                   [py " y"; py "Y "] [Line (py "x")]
                   eq_refl eq_refl eq_refl _ eq_refl)).
  repeat constructor.
Defined.

(** X12. When [expected_input] is true and the lines typed before an
    interrupt or the end of the input are all refused (the first one
    stripped, the others as typed), [prompt_for_answer] returns no answer:
    after one complaint for each line it prints an empty line and the run
    ends with [exit()], in the world it started in. *)
Theorem X12_prompt_exits
    (world : Type) (lower : str -> str) (prompt : str)
    (expected_input : expected world) (error_message : option str)
    (allow : bool) (c : console world) (lines : list str) (tail : list key) :
  let w := st_world (con_state c) in
  truthy expected_input = true ->
  con_stdin c = map Line lines ++ tail ->
  match tail with Line _ :: _ => False | _ => True end ->
  match lines with
  | [] => True
  | first :: wrong =>
      check_answer lower (strip first) expected_input allow w = false
      /\ Forall (fun a => check_answer lower a expected_input allow w = false)
                wrong
  end ->
  prompt_for_answer lower prompt expected_input error_message allow c
  = Exit
      {| con_state :=
           print [] (Nat.iter (length lines) (complain error_message)
                              (con_state c));
         con_stdin := tl tail;
         con_prompts :=
           con_prompts c
           ++ repeat (CBEIGE ++ prompt ++ CEND) (S (length lines)) |}
  /\ st_world (print [] (Nat.iter (length lines) (complain error_message)
                                  (con_state c))) = w.
Proof.
  intros w T K Ht H. split.
  - unfold prompt_for_answer. rewrite K.
    destruct lines as [|first wrong].
    + cbn [map app]. destruct tail as [|[x|] rest]; [|contradiction|];
        reflexivity.
    + destruct H as [H1 H2]. cbn [map app]. rewrite T. fold w. rewrite H1.
      rewrite ask_again_leaves by assumption.
      do 2 f_equal. rewrite <- app_assoc. reflexivity.
  - cbn [print st_world]. clear. induction (length lines) as [|k IH];
      [reflexivity|].
    rewrite Nat.iter_succ. now rewrite complain_world.
Qed.

Lemma X12_prompt_exits_witness :
  let c := {| con_state := start nested;
              con_stdin := [Line (py "perhaps"); Line (py " y"); Interrupt;
                            Line (py "y")];
              con_prompts := [] |} in
  prompt_for_answer ascii_lower (py "? ") (Choices yes_or_no) None false c
  = Exit {| con_state := print [] (start nested);
            con_stdin := [Line (py "y")];
            con_prompts := repeat (CBEIGE ++ py "? " ++ CEND) 3 |}.
Proof.
  intros c.
  refine (proj1 (@X12_prompt_exits fs ascii_lower (py "? ")
                   (Choices yes_or_no) None false c
                   [py "perhaps"; py " y"] [Interrupt; Line (py "y")]
                   eq_refl eq_refl I _)).
  split; [reflexivity|]. repeat constructor.
Defined.

(** X13. Whatever is typed, the arguments [main] collects for
    [rename_files] are never empty: the directory is ["."] or one
    [os.path.isdir] accepted, the search token is the single space or a
    string that stripping leaves as it is, and so is the replacement with
    the underscore.  The prompts leave the world as it was and read at
    least five keys. *)
Theorem X13_main_arguments
    (world : Type) (os : OS world) (lower : str -> str)
    (c c' : console world) (kw : kwargs) :
  main_kwargs lower c = Answer kw c' ->
  kw_directory kw <> [] /\ kw_search kw <> [] /\ kw_replace kw <> []
  /\ (kw_directory kw = py "."
      \/ os_path_isdir (kw_directory kw) (st_world (con_state c)) = true)
  /\ (kw_search kw = py " " \/ strip (kw_search kw) = kw_search kw)
  /\ (kw_replace kw = py "_" \/ strip (kw_replace kw) = kw_replace kw)
  /\ st_world (con_state c') = st_world (con_state c)
  /\ length (con_stdin c') + 5 <= length (con_stdin c).
Proof.
  intros H. pose proof (main_kwargs_kept lower c) as K.
  now rewrite H in K.
Qed.

Lemma X13_main_arguments_witness :
  let c := {| con_state := start nested;
              con_stdin := [Line (py "nowhere"); Line (py ""); Line (py "  ");
                            Line (py " - "); Line (py "Y"); Line (py "no")];
              con_prompts := [] |} in
  exists c',
    main_kwargs ascii_lower c
    = Answer {| kw_directory := py "."; kw_search := py " ";
                kw_replace := py "-"; kw_sub_directories := true;
                kw_rename_directories := false |} c'
    /\ py " " <> [].
Proof.
  intros c. eexists.
  match goal with |- ?A /\ _ => assert (E : A) by (vm_compute; reflexivity) end.
  split; [exact E|].
  exact (proj1 (proj2 (@X13_main_arguments fs SimFS.os ascii_lower c _ _ E))).
Defined.

(** X14. When fewer than five keys are left to read, [main] ends with
    [exit()] before it calls [rename_files]: the world is as it was. *)
Theorem X14_main_exits_on_short_input
    (world : Type) (os : OS world) (lower : str -> str) (fuel : nat)
    (c : console world) :
  length (con_stdin c) < 5 ->
  exists c',
    main lower fuel c = Exited c'
    /\ st_world (con_state c') = st_world (con_state c).
Proof.
  intros L. unfold main. pose proof (main_kwargs_kept lower c) as K.
  destruct (main_kwargs lower c) as [kw c'|c'].
  - destruct K as (_ & _ & _ & _ & _ & _ & _ & K). lia.
  - eauto.
Qed.

Lemma X14_main_exits_on_short_input_witness :
  let c := {| con_state := start nested;
              con_stdin := [Line (py "/"); Line (py " "); Line (py "_");
                            Line (py "y")];
              con_prompts := [] |} in
  exists c',
    main ascii_lower 5 c = Exited c'
    /\ st_world (con_state c') = st_world (start nested).
Proof.
  intros c.
  refine (@X14_main_exits_on_short_input fs SimFS.os ascii_lower 5 c _).
  vm_compute. lia.
Defined.

(** X15. When the five prompts are answered at once (a directory that is
    empty or that [os.path.isdir] accepts, any two lines, two answers
    among yes, y, no, n in any case), [main] calls [rename_files] from the
    counter 0 with the stripped answers, ["."], the single space and the
    underscore standing for the empty ones, and the two flags set by yes
    or y; it prints the count it gets back in a line of width 100, and an
    exception of [rename_files] leaves [main]. *)
Theorem X15_main_calls_rename_files
    (world : Type) (os : OS world) (lower : str -> str) (fuel : nat)
    (c : console world) (d s r a4 a5 : str) (rest : list key) :
  let w := st_world (con_state c) in
  con_stdin c = Line d :: Line s :: Line r :: Line a4 :: Line a5 :: rest ->
  (strip d = [] \/ os_path_isdir (strip d) w = true) ->
  In (lower (strip a4)) yes_or_no ->
  In (lower (strip a5)) yes_or_no ->
  exists shown,
    let c' := {| con_state := con_state c; con_stdin := rest;
                 con_prompts := shown |} in
    let kw := {| kw_directory := or_default (strip d) (py ".");
                 kw_search := or_default (strip s) (py " ");
                 kw_replace := or_default (strip r) (py "_");
                 kw_sub_directories := is_yes lower (strip a4);
                 kw_rename_directories := is_yes lower (strip a5) |} in
    main_kwargs lower c = Answer kw c'
    /\ main lower fuel c
       = match rename_files fuel (kw_directory kw) (kw_search kw)
                            (kw_replace kw) (kw_sub_directories kw)
                            (kw_rename_directories kw) 0 (con_state c) with
         | Done counter s' =>
             Finished
               {| con_state :=
                    print ([10%N] ++ center 100 (ch "*") (how_many counter)
                           ++ [10%N]) s';
                  con_stdin := rest; con_prompts := shown |}
         | Raised e s' =>
             Crashed e {| con_state := s'; con_stdin := rest;
                          con_prompts := shown |}
         | OutOfFuel => Unfinished
         end.
Proof.
  intros w K D Y4 Y5.
  assert (Hd : check_answer lower (strip d) (Callable os_path_isdir) true w
               = true).
  { rewrite check_directory. destruct D as [->|D]; [reflexivity|].
    rewrite D. now destruct (nonempty (strip d)). }
  assert (Hy : forall a, In (lower a) yes_or_no ->
                         check_answer lower a (Choices yes_or_no) false w
                         = true).
  { intros a Ha. cbn [check_answer]. apply existsb_exists.
    exists (lower a). split; [exact Ha|apply str_eqb_refl]. }
  eassert (E : main_kwargs lower c
              = Answer {| kw_directory := or_default (strip d) (py ".");
                          kw_search := or_default (strip s) (py " ");
                          kw_replace := or_default (strip r) (py "_");
                          kw_sub_directories := is_yes lower (strip a4);
                          kw_rename_directories := is_yes lower (strip a5) |}
                  {| con_state := con_state c; con_stdin := rest;
                     con_prompts := _ |}).
  { unfold main_kwargs. unfold prompt_for_answer at 1. rewrite K.
    cbn [truthy]. fold w. rewrite Hd. cbn [then_prompt].
    unfold prompt_for_answer at 1. cbn [con_stdin con_state con_prompts truthy then_prompt].
    unfold prompt_for_answer at 1. cbn [con_stdin con_state con_prompts truthy then_prompt].
    unfold prompt_for_answer at 1.
    cbn [con_stdin con_state con_prompts truthy then_prompt yes_or_no length Nat.eqb negb].
    fold yes_or_no. fold w. rewrite (Hy _ Y4). cbn [then_prompt].
    unfold prompt_for_answer at 1.
    cbn [con_stdin con_state con_prompts truthy then_prompt yes_or_no length Nat.eqb negb].
    fold yes_or_no. fold w. rewrite (Hy _ Y5). cbn [then_prompt].
    reflexivity. }
  eexists. cbv zeta. split; [exact E|].
  unfold main. rewrite E. cbn [kw_directory kw_search kw_replace
    kw_sub_directories kw_rename_directories con_state con_stdin con_prompts].
  reflexivity.
Qed.

Lemma X15_main_calls_rename_files_witness :
  let c := {| con_state := start tmp_x;
              con_stdin := [Line (py " /tmp/x "); Line (py ""); Line (py "");
                            Line (py "N"); Line (py "no")];
              con_prompts := [] |} in
  exists shown s',
    main ascii_lower 1 c
    = Finished
        {| con_state := s'; con_stdin := []; con_prompts := shown |}
    /\ st_stdout s'
       = [[10%N] ++ repeat (ch "*") 41 ++ py " 2 files renamed "
          ++ repeat (ch "*") 42 ++ [10%N]].
Proof.
  intros c.
  destruct (@X15_main_calls_rename_files
              fs SimFS.os ascii_lower 1 c (py " /tmp/x ") [] [] (py "N")
              (py "no") [] eq_refl (or_intror eq_refl)
              (or_intror (or_intror (or_intror (or_introl eq_refl))))
              (or_intror (or_intror (or_introl eq_refl))))
    as (shown & _ & H).
  exists shown. eexists. split; [exact H|]. vm_compute. reflexivity.
Defined.

End MoreProperties.
